(** * Source code comment handling (libcodechecker/source_code_comment_handler.py)

    A shallow embedding of [SourceCodeCommentHandler]: the comment scanner
    ([get_source_line_comments]), the directive parser
    ([__process_source_line_comment]) and the checker filter
    ([filter_source_line_comments]), together with the properties of the
    specification that concern them.

    Text is modelled as byte strings ([string], one [ascii] per character);
    whitespace is the ASCII whitespace of [str.strip], [str.split] and the
    regular expression class [\s]: tab, line feed, vertical tab, form feed,
    carriage return and space. *)

From Stdlib Require Import ZArith Lia Bool Ascii String.
From stdpp Require Import base list strings gmap.

Local Open Scope string_scope.
Local Open Scope list_scope.

(** ** Python string primitives *)

Module PyStr.

Definition isspace (c : ascii) : bool :=
  match c with
  | "009" | "010" | "011" | "012" | "013" | " " => true
  | _ => false
  end%char.

(** [s.lstrip()] *)
Fixpoint lstrip (s : string) : string :=
  match s with
  | String c s' => if isspace c then lstrip s' else s
  | EmptyString => EmptyString
  end.

(** [s.rstrip()] *)
Fixpoint rstrip (s : string) : string :=
  match s with
  | String c s' =>
      match rstrip s' with
      | EmptyString => if isspace c then EmptyString else String c EmptyString
      | r => String c r
      end
  | EmptyString => EmptyString
  end.

(** [s.strip()] *)
Definition strip (s : string) : string := rstrip (lstrip s).

(** [s.startswith(p)] *)
Definition startswith (p s : string) : bool := String.prefix p s.

(** [sub in s] *)
Fixpoint contains (sub s : string) : bool :=
  String.prefix sub s ||
  match s with
  | String _ s' => contains sub s'
  | EmptyString => false
  end.

(** [s[n:]] *)
Fixpoint drop (n : nat) (s : string) : string :=
  match n, s with
  | S n', String _ s' => drop n' s'
  | _, _ => s
  end.

(** [s[:n]] *)
Fixpoint take (n : nat) (s : string) : string :=
  match n, s with
  | S n', String c s' => String c (take n' s')
  | _, _ => EmptyString
  end.

(** The maximal runs of characters of [s] that are not separators, left to
    right; [cur] is the run being read. *)
Fixpoint runs (sep : ascii -> bool) (cur : string) (s : string) : list string :=
  match s with
  | String c s' =>
      if sep c then
        match cur with
        | EmptyString => runs sep EmptyString s'
        | _ => cur :: runs sep EmptyString s'
        end
      else runs sep (cur +:+ String c EmptyString) s'
  | EmptyString =>
      match cur with
      | EmptyString => []
      | _ => [cur]
      end
  end.

(** [s.split()]: split on runs of whitespace, no empty pieces. *)
Definition split (s : string) : list string := runs isspace EmptyString s.

(** [sep.join(l)] *)
Fixpoint join (sep : string) (l : list string) : string :=
  match l with
  | [] => EmptyString
  | [x] => x
  | x :: l' => x +:+ sep +:+ join sep l'
  end.

(** [s.replace(old, new)] for a non-empty [old]: occurrences are found left
    to right and do not overlap; [skip] counts the characters of an
    occurrence that are still to be passed over. *)
Fixpoint replace_from (old new : string) (skip : nat) (s : string) : string :=
  match s with
  | String c s' =>
      match skip with
      | S k => replace_from old new k s'
      | O =>
          if String.prefix old s
          then new +:+ replace_from old new (String.length old - 1) s'
          else String c (replace_from old new 0 s')
      end
  | EmptyString => EmptyString
  end.

Definition replace (old new s : string) : string := replace_from old new 0 s.

(** [all(p(c) for c in s)] *)
Fixpoint sforall (p : ascii -> bool) (s : string) : bool :=
  match s with
  | String c s' => p c && sforall p s'
  | EmptyString => true
  end.

End PyStr.

Import PyStr.

(** ** A backtracking matcher for the regular expressions of the module *)

Module Re.

(** Character classes. *)
Inductive cclass : Type :=
| CSpace   (* \s *)
| CDot.    (* .  : anything but a line feed *)

Definition cmatch (cl : cclass) (c : ascii) : bool :=
  match cl with
  | CSpace => isspace c
  | CDot => negb (Ascii.eqb c "010")
  end.

Inductive regex : Type :=
| RBol                                   (* ^ *)
| REol                                   (* $ *)
| RLit (l : string)                      (* literal text *)
| RStar (cl : cclass)                    (* greedy cl* *)
| RAlt (r1 r2 : regex)                   (* r1|r2, r1 tried first *)
| RGroup (name : string) (r : regex)     (* (?P<name>r) *)
| RSeq (r1 r2 : regex).

(** Captured groups, most recently closed first. *)
Definition groups : Type := list (string * string).

Fixpoint group (name : string) (g : groups) : string :=
  match g with
  | (n, v) :: g' => if String.eqb n name then v else group name g'
  | [] => EmptyString
  end.

(** Greedy repetition of a character class: the longest run first, then
    one character less on each failure of the continuation. *)
Fixpoint star {A : Type} (p : ascii -> bool) (s : string)
    (k : string -> option A) : option A :=
  match s with
  | String c s' =>
      if p c then
        match star p s' k with
        | Some r => Some r
        | None => k s
        end
      else k s
  | EmptyString => k s
  end.

(** [rmatch whole r s g k]: match [r] at the suffix [s] of the subject
    [whole] with the groups [g] closed so far, then continue with [k]. *)
Fixpoint rmatch (whole : string) (r : regex) (s : string) (g : groups)
    (k : string -> groups -> option groups) {struct r} : option groups :=
  match r with
  | RBol =>
      if Nat.eqb (String.length s) (String.length whole) then k s g else None
  | REol =>
      match s with
      | EmptyString => k s g
      | String "010"%char EmptyString => k s g
      | _ => None
      end
  | RLit l =>
      if String.prefix l s then k (drop (String.length l) s) g else None
  | RStar cl => star (cmatch cl) s (fun s' => k s' g)
  | RAlt r1 r2 =>
      match rmatch whole r1 s g k with
      | Some res => Some res
      | None => rmatch whole r2 s g k
      end
  | RGroup name r1 =>
      rmatch whole r1 s g
        (fun s' g' =>
           k s' ((name, take (String.length s - String.length s') s) :: g'))
  | RSeq r1 r2 =>
      rmatch whole r1 s g (fun s' g' => rmatch whole r2 s' g' k)
  end.

(** [re.match(r, s)] *)
Definition re_match (r : regex) (s : string) : option groups :=
  rmatch s r s [] (fun _ g => Some g).

(** ['|'.join(l)] as a pattern: the alternation of the literals of [l]. *)
Fixpoint alternation (l : list string) : regex :=
  match l with
  | [] => RLit EmptyString
  | [x] => RLit x
  | x :: l' => RAlt (RLit x) (alternation l')
  end.

Fixpoint concatenation (l : list regex) : regex :=
  match l with
  | [] => RLit EmptyString
  | [r] => r
  | r :: l' => RSeq r (concatenation l')
  end.

End Re.

Import Re.

(** ** The handler *)

Definition source_code_comment_markers : list string :=
  [ "codechecker_suppress";
    "codechecker_false_positive";
    "codechecker_intentional";
    "codechecker_confirmed" ].

(** A processed source code comment: the dictionary with the keys
    ['checkers'], ['message'] and ['status']. *)
Record Directive : Type := mkDirective {
  checkers : gset string;
  message : string;
  status : string
}.

(** [__check_if_comment] *)
Definition check_if_comment (source_line : string) : bool :=
  startswith "//" (strip source_line).

(** The pattern of [__process_source_line_comment]: start of text,
    whitespace, the group [status] (one of the markers, tried in the order
    of the list), whitespace, an opening bracket, whitespace, the group
    [checkers] (a greedy run of any characters, itself an unnamed group, the
    second of the pattern), whitespace, a closing bracket, whitespace, the
    group [comment] (a greedy run of any characters), end of text. *)
Definition pattern : regex :=
  concatenation [ RBol; RStar CSpace;
        RGroup "status" (alternation source_code_comment_markers);
        RStar CSpace; RLit "["; RStar CSpace;
        RGroup "checkers" (RGroup "2" (RStar CDot));
        RStar CSpace; RLit "]"; RStar CSpace;
        RGroup "comment" (RStar CDot); REol ].

(** The characters outside the class [[^,\s]]. *)
Definition is_separator (c : ascii) : bool := Ascii.eqb c ","%char || isspace c.

(** [re.findall(r"[^,\s]+", s)]: the maximal runs of characters that are
    neither a comma nor whitespace. *)
Definition findall_checker_names (s : string) : list string :=
  runs is_separator EmptyString s.

Definition missing_comment : string := "WARNING! source code comment is missing".

(** [' '.join(source_line_comment.split())]: whitespace runs collapsed to
    single spaces, no whitespace at the ends. *)
Definition formatted (source_line_comment : string) : string :=
  join " " (split source_line_comment).

(** The dictionary built from a successful match. *)
Definition directive_of_match (res : groups) : Directive :=
  let checkers := group "checkers" res in
  let checkers_names : gset string :=
    if String.eqb checkers "all"
    then {["all"]} ∪ ∅
    else list_to_set (findall_checker_names (strip checkers)) ∪ ∅ in
  let comment := group "comment" res in
  let message :=
    match comment with
    | EmptyString => missing_comment
    | _ => comment
    end in
  let status := group "status" res in
  let review_status :=
    if String.eqb status "codechecker_intentional" then "intentional"
    else if String.eqb status "codechecker_confirmed" then "confirmed"
    else "false_positive" in
  {| checkers := checkers_names; message := message; status := review_status |}.

(** [__process_source_line_comment]; [None] is the implicit [return None]
    of a text that does not match. *)
Definition process_source_line_comment (source_line_comment : string)
    : option Directive :=
  match re_match pattern (formatted source_line_comment) with
  | Some res => Some (directive_of_match res)
  | None => None
  end.

(** ** The scanner *)

(** [any(marker in source_line for marker in source_code_comment_markers)] *)
Definition has_any_marker (source_line : string) : bool :=
  existsb (fun marker => contains marker source_line) source_code_comment_markers.

(** What the scanning loop asks of its collaborators, in the order of the
    calls: the line reader [util.get_line], the parser
    [__process_source_line_comment] and the logger [LOG.warning]. *)
Inductive event : Type :=
| GetLine (line_num : Z)
| Process (suppress_comment : string)
| Warning (line_num : Z) (text : string).

Section Handler.

(** [util.get_line(source_file, n)] for the file of the handler. *)
Variable get_line : Z -> string.

(** The [while True] loop of [get_source_line_comments].  The loop is
    entered with [previous_line_num >= 1] and only ever decrements it while
    it is positive, so the counter is a natural number; the last [match] is
    [if previous_line_num > 0: previous_line_num -= 1 else: break].  The
    dictionary returned by the parser always has its three keys, so
    [if comment:] holds exactly when the parser returned one. *)
Fixpoint scan_loop (previous_line_num : nat)
    (curr_suppress_comment : list string)
    (source_line_comments : list Directive)
    (trace : list event) : list Directive * list event :=
  let source_line := get_line (Z.of_nat previous_line_num) in
  let trace := trace ++ [GetLine (Z.of_nat previous_line_num)] in
  if negb (check_if_comment source_line) then (source_line_comments, trace)
  else
    let curr_suppress_comment := curr_suppress_comment ++ [strip source_line] in
    let '(curr_suppress_comment, source_line_comments, trace) :=
      if has_any_marker source_line then
        let rev := List.rev curr_suppress_comment in
        let suppress_comment := replace "//" "" (join "" rev) in
        match process_source_line_comment suppress_comment with
        | Some comment =>
            ([], source_line_comments ++ [comment],
             trace ++ [Process suppress_comment])
        | None =>
            ([], source_line_comments,
             trace ++ [Process suppress_comment;
                       Warning (Z.of_nat previous_line_num) (join " " rev)])
        end
      else (curr_suppress_comment, source_line_comments, trace) in
    match previous_line_num with
    | S n => scan_loop n curr_suppress_comment source_line_comments trace
    | O => (source_line_comments, trace)
    end.

(** [get_source_line_comments], with the trace of its calls. *)
Definition get_source_line_comments_traced (bug_line : Z)
    : list Directive * list event :=
  let previous_line_num := (bug_line - 1)%Z in
  if (previous_line_num <? 1)%Z then ([], [])
  else scan_loop (Z.to_nat previous_line_num) [] [] [].

Definition get_source_line_comments (bug_line : Z) : list Directive :=
  fst (get_source_line_comments_traced bug_line).

(** The line numbers passed to [util.get_line], in the order of the calls. *)
Definition requested_lines (bug_line : Z) : list Z :=
  omap (fun e => match e with GetLine n => Some n | _ => None end)
       (snd (get_source_line_comments_traced bug_line)).

(** The texts passed to the parser, in the order of the calls. *)
Definition processed_texts (bug_line : Z) : list string :=
  omap (fun e => match e with Process t => Some t | _ => None end)
       (snd (get_source_line_comments_traced bug_line)).

(** [has_source_line_comments]: [len(comments)], a Python [int]. *)
Definition has_source_line_comments (line : Z) : Z :=
  Z.of_nat (length (get_source_line_comments line)).

(** ** The filter *)

(** The variables of the [for] loop of [filter_source_line_comments]. *)
Record filter_state : Type := mkFilterState {
  all_checker_comment : option Directive;
  checker_name_comments : list Directive;
  comment_len : nat
}.

(** One iteration of the loop. *)
Definition filter_step (checker_name : string) (st : filter_state)
    (line_comment : Directive) : filter_state :=
  let comment_len := length (checker_name_comments st) in
  let all_checker_comment :=
    if bool_decide ("all" ∈ checkers line_comment) && Nat.eqb comment_len 0
    then Some line_comment
    else all_checker_comment st in
  let checker_name_comments :=
    if bool_decide (checker_name ∈ checkers line_comment)
    then checker_name_comments st ++ [line_comment]
    else checker_name_comments st in
  {| all_checker_comment := all_checker_comment;
     checker_name_comments := checker_name_comments;
     comment_len := comment_len |}.

(** The body of [filter_source_line_comments] after the scan.
    [comment_len] is bound by the first iteration; the loop is only
    reached with a non-empty list, so its initial value is never read. *)
Definition filter_comments (source_line_comments : list Directive)
    (checker_name : string) : list Directive :=
  match source_line_comments with
  | [] => []
  | _ =>
      let st :=
        fold_left (filter_step checker_name) source_line_comments
          {| all_checker_comment := None;
             checker_name_comments := [];
             comment_len := 0 |} in
      match all_checker_comment st with
      | Some c =>
          if Nat.eqb (comment_len st) 0
          then checker_name_comments st ++ [c]
          else checker_name_comments st
      | None => checker_name_comments st
      end
  end.

(** [filter_source_line_comments] *)
Definition filter_source_line_comments (bug_line : Z)
    (checker_name : string) : list Directive :=
  filter_comments (get_source_line_comments bug_line) checker_name.

End Handler.

(** Modelled from the spec: [util.get_line] is not among the sources.  The
    specification gives its contract, [get_line(file, line_number)] with
    1-indexed line numbers returning the literal text of the line without
    its terminator, and leaves the line numbers outside the file open.  The
    properties below hold for every line reader [get_line : Z -> string];
    this one reads a file given by its lines and serves the concrete cases:
    line [n] for [1 <= n <= length lines], the empty text elsewhere. *)
Definition file_reader (lines : list string) (n : Z) : string :=
  if (n <? 1)%Z then EmptyString
  else nth (Z.to_nat n - 1) lines EmptyString.

(** The lines [lo], [lo + 1], ..., [hi - 1] of a file, top to bottom. *)
Definition lines_between (get_line : Z -> string) (lo hi : Z) : list string :=
  get_line <$> seqZ lo (hi - lo).

(** The text built from the accumulated lines of a block, given top to
    bottom: [''.join(rev).replace('//', '')]. *)
Definition suppress_comment_of (block : list string) : string :=
  replace "//" "" (join "" (strip <$> block)).

(** The file [get_line] with every line above [m] (that is, of a number
    below [m]) replaced by the empty text. *)
Definition cut_above (get_line : Z -> string) (m : Z) : Z -> string :=
  fun n => if (n <? m)%Z then EmptyString else get_line n.

(** ** Concrete files used below *)

Definition file_two_line_directive : list string :=
  [ "int x;";
    "// codechecker_suppress [a,b] some";
    "// comment";
    "x = 1 / 0;" ].

Definition file_wildcard_nearest : list string :=
  [ "int x;";
    "// codechecker_suppress [x] one";
    "// codechecker_suppress [all] two";
    "x = 1 / 0;" ].

Definition directive_x : Directive :=
  {| checkers := {["x"]}; message := "one"; status := "false_positive" |}.

Definition directive_all : Directive :=
  {| checkers := {["all"]}; message := "two"; status := "false_positive" |}.

Definition file_comment_at_top : list string :=
  [ "// a plain comment"; "x = 1 / 0;" ].

Definition file_no_space_after_prefix : list string :=
  [ "int x;";
    "//codechecker_suppress [a] some";
    "//comment";
    "x = 1 / 0;" ].

Definition file_malformed_below : list string :=
  [ "int y;";
    "// codechecker_confirmed [c] up";
    "// codechecker_suppress core.Foo some comment";
    "x = 1 / 0;" ].

Definition file_wildcard_only : list string :=
  [ "int x;"; "// codechecker_suppress [all] m"; "x = 1 / 0;" ].

Definition file_stop_in_the_middle : list string :=
  [ "// codechecker_suppress [x] one";
    "int y;";
    "// a note";
    "// codechecker_suppress [all] two";
    "x = 1 / 0;" ].

Definition file_empty_brackets : list string :=
  [ "int x;"; "// codechecker_suppress [] foo"; "x = 1 / 0;" ].

Definition file_two_wildcards : list string :=
  [ "int x;";
    "// codechecker_confirmed [all] far";
    "// codechecker_suppress [all] near";
    "x = 1 / 0;" ].

Definition file_explicit_nearest : list string :=
  [ "int x;";
    "// codechecker_suppress [all] two";
    "// codechecker_suppress [x] one";
    "x = 1 / 0;" ].

(** ** The rest of the module *)

(** [skip_suppress_status]: [status in ['false_positive', 'intentional']]. *)
Definition skip_suppress_statuses : list string :=
  [ "false_positive"; "intentional" ].

Definition skip_suppress_status (status : string) : bool :=
  existsb (String.eqb status) skip_suppress_statuses.

(** The review status that [__process_source_line_comment] gives to a
    marker. *)
Definition review_status_of (marker : string) : string :=
  if String.eqb marker "codechecker_intentional" then "intentional"
  else if String.eqb marker "codechecker_confirmed" then "confirmed"
  else "false_positive".

(** The directives of a list that name the checker, in the order of the
    list. *)
Definition explicit_matches (checker_name : string) (l : list Directive)
    : list Directive :=
  filter (fun d => checker_name ∈ checkers d) l.

(** The directives of a list whose checkers hold ['all']. *)
Definition wildcards (l : list Directive) : list Directive :=
  filter (fun d => "all" ∈ checkers d) l.

(** The warnings logged by a scan: the line number and the text of each. *)
Definition logged_warnings (get_line : Z -> string) (bug_line : Z)
    : list (Z * string) :=
  omap (fun e => match e with Warning n t => Some (n, t) | _ => None end)
       (snd (get_source_line_comments_traced get_line bug_line)).

(** ** Auxiliary definitions of the proofs *)

(** A piece of [s.split()]: not empty, no whitespace inside. *)
Definition is_word (sep : ascii -> bool) (w : string) : Prop :=
  w <> "" /\ sforall (fun c => negb (sep c)) w = true.

(** The characters of a collapsed text: not whitespace, or a space. *)
Definition collapsed_char (c : ascii) : bool :=
  negb (isspace c) || Ascii.eqb c " "%char.

(** The part of the pattern that follows the group [checkers]. *)
Definition tail_pattern : regex :=
  concatenation [ RStar CSpace; RLit "]"; RStar CSpace;
        RGroup "comment" (RStar CDot); REol ].

(** The part of the pattern that follows the group [status]. *)
Definition body_pattern : regex :=
  concatenation [ RStar CSpace; RLit "["; RStar CSpace;
        RGroup "checkers" (RGroup "2" (RStar CDot)); tail_pattern ].

Definition accept : string -> groups -> option groups := fun _ g => Some g.

(** [n; n - 1; ...]: [d] line numbers downward from [n]. *)
Fixpoint down (n d : nat) : list nat :=
  match d with
  | O => []
  | S d' => n :: down (pred n) d'
  end.

(** The variables of the scanning loop: the accumulated lines, the
    directives found and the trace. *)
Definition loop_vars : Type := (list string * list Directive * list event)%type.

(** The effect of one iteration of the scanning loop that reads the comment
    line [source_line] at the line number [n]. *)
Definition absorb_line (st : loop_vars) (nl : nat * string) : loop_vars :=
  let '(curr_suppress_comment, source_line_comments, trace) := st in
  let '(n, source_line) := nl in
  let trace := trace ++ [GetLine (Z.of_nat n)] in
  let curr_suppress_comment := curr_suppress_comment ++ [strip source_line] in
  if has_any_marker source_line then
    let rev := List.rev curr_suppress_comment in
    let suppress_comment := replace "//" "" (join "" rev) in
    match process_source_line_comment suppress_comment with
    | Some comment =>
        ([], source_line_comments ++ [comment],
         trace ++ [Process suppress_comment])
    | None =>
        ([], source_line_comments,
         trace ++ [Process suppress_comment;
                   Warning (Z.of_nat n) (join " " rev)])
    end
  else (curr_suppress_comment, source_line_comments, trace).

(** The [d] lines from [n] downward, with their numbers. *)
Definition lines_down (get_line : Z -> string) (n d : nat) : list (nat * string) :=
  (fun j => (j, get_line (Z.of_nat j))) <$> down n d.

(** The loop variables after [d] iterations over comment lines from [n]. *)
Definition run (get_line : Z -> string) (n d : nat) (st : loop_vars) : loop_vars :=
  fold_left absorb_line (lines_down get_line n d) st.

(** The text of a block as the specification words it: the lines top to
    bottom, joined by line breaks, the comment prefix removed, whitespace
    runs collapsed. *)
Definition spec_block_text (block : list string) : string :=
  formatted (replace "//" "" (join (String "010"%char EmptyString) block)).

(** Splits the boolean conjunctions among the hypotheses. *)
Ltac split_andb :=
  repeat match goal with
         | H : _ && _ = true |- _ => apply andb_true_iff in H as [? ?]
         end.

(** * Properties *)

(** ** Evaluation on the documented examples *)

Example process_documented_format :
  process_source_line_comment " codechecker_confirmed [checker.name1, checker.name2] some multi line comment"
  = Some {| checkers := {["checker.name1"; "checker.name2"]};
            message := "some multi line comment";
            status := "confirmed" |}.
Proof. vm_compute. reflexivity. Qed.

Example process_missing_brackets :
  process_source_line_comment " codechecker_suppress core.Foo some comment" = None.
Proof. vm_compute. reflexivity. Qed.

Example scan_two_line_directive :
  get_source_line_comments_traced (file_reader file_two_line_directive) 4
  = ([ {| checkers := {["a"; "b"]}; message := "some comment";
          status := "false_positive" |} ],
     [ GetLine 3; GetLine 2;
       Process " codechecker_suppress [a,b] some comment";
       GetLine 1 ]).
Proof. vm_compute. reflexivity. Qed.

(** ** The filter *)

(** C1 (code_bug).  The claim: when some directive names the checker, the
    filter returns exactly the explicit matches and never the wildcard
    directive.  The code: in the file whose nearest block is the wildcard
    and whose next block names ["x"], the scanner yields the wildcard first
    and the explicit directive second, and the filter for ["x"] returns the
    explicit directive followed by the wildcard directive: [comment_len] is
    read after the loop with the value it had before the last iteration. *)
Theorem C1_filter_appends_wildcard_after_explicit_match :
  get_source_line_comments (file_reader file_wildcard_nearest) 4
    = [directive_all; directive_x]
  /\ filter_comments [directive_all; directive_x] "x"
    = [directive_x; directive_all]
  /\ filter_source_line_comments (file_reader file_wildcard_nearest) 4 "x"
    = [directive_x; directive_all].
Proof. repeat split; vm_compute; reflexivity. Qed.

(** C9.  Filtering by the checker name ["all"] when the scanner found the
    single directive with the checkers [{"all"}] returns that directive
    twice: once as an explicit match, once as the wildcard. *)
Theorem C9_filter_all_returns_wildcard_twice :
  forall (get_line : Z -> string) (bug_line : Z) (d : Directive),
    get_source_line_comments get_line bug_line = [d] ->
    checkers d = {["all"]} ->
    filter_source_line_comments get_line bug_line "all" = [d; d].
Proof.
  intros get_line bug_line d Hscan Hall.
  unfold filter_source_line_comments. rewrite Hscan.
  unfold filter_comments, filter_step. cbn [fold_left checker_name_comments
    all_checker_comment comment_len length].
  rewrite Hall.
  rewrite (bool_decide_eq_true_2 ("all" ∈ ({["all"]} : gset string)))
    by now apply elem_of_singleton.
  reflexivity.
Qed.

Lemma C9_filter_all_returns_wildcard_twice_witness :
  filter_source_line_comments (file_reader file_wildcard_only) 3 "all"
  = [ {| checkers := {["all"]}; message := "m"; status := "false_positive" |};
      {| checkers := {["all"]}; message := "m"; status := "false_positive" |} ].
Proof.
  apply (C9_filter_all_returns_wildcard_twice (file_reader file_wildcard_only) 3
           {| checkers := {["all"]}; message := "m"; status := "false_positive" |}).
  - vm_compute. reflexivity.
  - reflexivity.
Defined.

(** ** The scanner: first line and line count *)

(** C5.  When [bug_line - 1 < 1] the scanner returns the empty sequence and
    calls neither the line reader nor the parser. *)
Theorem C5_no_line_above_first :
  forall (get_line : Z -> string) (bug_line : Z),
    (bug_line - 1 < 1)%Z ->
    get_source_line_comments_traced get_line bug_line = ([], []).
Proof.
  intros get_line bug_line H.
  unfold get_source_line_comments_traced.
  destruct (Z.ltb_spec (bug_line - 1) 1) as [_ | Hge]; [reflexivity | lia].
Qed.

Lemma C5_no_line_above_first_witness :
  (1 - 1 < 1)%Z
  /\ get_source_line_comments_traced (file_reader file_wildcard_only) 1 = ([], []).
Proof.
  split; [lia | apply (C5_no_line_above_first (file_reader file_wildcard_only) 1); lia].
Defined.

(** C10.  [has_source_line_comments] returns the number of directives found
    for the line, the length of the result of [get_source_line_comments];
    the number is not a truth value: it is 2 for a line with two blocks. *)
Theorem C10_has_source_line_comments_is_count :
  (forall (get_line : Z -> string) (line : Z),
     has_source_line_comments get_line line
     = Z.of_nat (length (get_source_line_comments get_line line)))
  /\ has_source_line_comments (file_reader file_wildcard_nearest) 4 = 2%Z.
Proof. split; [reflexivity | vm_compute; reflexivity]. Qed.

(** ** Text lemmas *)

#[local] Arguments String.append : simpl nomatch.

Lemma app_empty_r (s : string) : s +:+ "" = s.
Proof. induction s as [|c s IH]; simpl; [reflexivity | now rewrite IH]. Qed.

Lemma app_assoc' (a b c : string) : (a +:+ b) +:+ c = a +:+ (b +:+ c).
Proof. induction a as [|x a IH]; simpl; [reflexivity | now rewrite IH]. Qed.

Lemma length_app (a b : string) :
  String.length (a +:+ b) = String.length a + String.length b.
Proof. induction a as [|x a IH]; simpl; [reflexivity | now rewrite IH]. Qed.

Lemma sforall_app p (a b : string) :
  sforall p (a +:+ b) = sforall p a && sforall p b.
Proof.
  induction a as [|x a IH]; simpl; [reflexivity|].
  rewrite IH. now rewrite andb_assoc.
Qed.

Lemma sforall_impl (p q : ascii -> bool) (s : string) :
  (forall c, p c = true -> q c = true) ->
  sforall p s = true -> sforall q s = true.
Proof.
  intros Hpq. induction s as [|c s IH]; simpl; [reflexivity|].
  intros [Hc Hs]%andb_true_iff. rewrite (Hpq _ Hc). simpl. auto.
Qed.

Lemma prefix_app (m s : string) :
  String.prefix m s = true -> s = m +:+ drop (String.length m) s.
Proof.
  revert s. induction m as [|c m IH]; intros s H; simpl.
  - now destruct s.
  - destruct s as [|c' s]; simpl in H; [discriminate|].
    destruct (ascii_dec c c') as [->|]; [|discriminate].
    simpl. f_equal. now apply IH.
Qed.

Lemma prefix_app_true (m s : string) : String.prefix m (m +:+ s) = true.
Proof.
  induction m as [|c m IH]; simpl; [now destruct s|].
  destruct (ascii_dec c c); [assumption | congruence].
Qed.

Lemma drop_app_length (a b : string) : drop (String.length a) (a +:+ b) = b.
Proof. induction a as [|c a IH]; simpl; [now destruct b | assumption]. Qed.

Lemma take_app_length (a b : string) :
  take (String.length (a +:+ b) - String.length b) (a +:+ b) = a.
Proof.
  rewrite length_app.
  replace (String.length a + String.length b - String.length b)
    with (String.length a) by lia.
  induction a as [|c a IH]; simpl; [now destruct b | now rewrite IH].
Qed.

Lemma take_all (a : string) : take (String.length a - 0) a = a.
Proof.
  rewrite Nat.sub_0_r. induction a as [|c a IH]; simpl; [reflexivity | now rewrite IH].
Qed.

(** ** The greedy star *)

Lemma star_none {A} p (s : string) (k : string -> option A) :
  star p s k = None ->
  forall pre rest, s = pre +:+ rest -> sforall p pre = true -> k rest = None.
Proof.
  induction s as [|c s IH]; simpl; intros H pre rest Hs Hp.
  - destruct pre; simpl in Hs; [now subst | discriminate].
  - destruct pre as [|c' pre]; simpl in Hs.
    + subst rest. destruct (p c); [|assumption].
      now destruct (star p s k).
    + injection Hs as -> ->. simpl in Hp.
      apply andb_true_iff in Hp as [Hc Hp]. rewrite Hc in H.
      destruct (star p (pre +:+ rest) k) eqn:E; [discriminate|].
      now apply (IH eq_refl pre rest).
Qed.

Lemma star_inv {A} p (s : string) (k : string -> option A) r :
  star p s k = Some r ->
  exists pre rest,
    s = pre +:+ rest /\ sforall p pre = true /\ k rest = Some r
    /\ (forall pre' rest', s = pre' +:+ rest' -> sforall p pre' = true ->
        String.length pre < String.length pre' -> k rest' = None).
Proof.
  induction s as [|c s IH]; simpl; intros H.
  - exists "", "". repeat split; try assumption.
    intros pre' rest' Hs _ Hlen. destruct pre'; simpl in *; [lia | discriminate].
  - destruct (p c) eqn:Hc.
    + destruct (star p s k) eqn:E.
      * injection H as ->.
        destruct (IH eq_refl) as (pre & rest & -> & Hp & Hk & Hmax).
        exists (String c pre), rest. simpl. rewrite Hc, Hp.
        repeat split; try assumption.
        intros pre' rest' Hs Hp' Hlen.
        destruct pre' as [|c' pre']; simpl in *; [lia|].
        injection Hs as -> Hs. apply andb_true_iff in Hp' as [_ Hp'].
        apply (Hmax pre' rest' Hs Hp'). lia.
      * exists "", (String c s). repeat split; try assumption.
        intros pre' rest' Hs Hp' Hlen.
        destruct pre' as [|c' pre']; simpl in *; [lia|].
        injection Hs as -> Hs. apply andb_true_iff in Hp' as [_ Hp'].
        apply (star_none _ _ _ E pre' rest' Hs Hp').
    + exists "", (String c s). repeat split; try assumption.
      intros pre' rest' Hs Hp' Hlen.
      destruct pre' as [|c' pre']; simpl in *; [lia|].
      injection Hs as -> Hs. rewrite Hc in Hp'. discriminate.
Qed.

Lemma star_lstrip {A} (s : string) (k : string -> option A) r :
  k (lstrip s) = Some r -> star isspace s k = Some r.
Proof.
  induction s as [|c s IH]; simpl; [auto|].
  destruct (isspace c); [|auto].
  intros H. now rewrite (IH H).
Qed.

Lemma star_all {A} p (s : string) (k : string -> option A) r :
  sforall p s = true -> k "" = Some r -> star p s k = Some r.
Proof.
  induction s as [|c s IH]; simpl; [auto|].
  intros [Hc Hs]%andb_true_iff Hk. rewrite Hc. now rewrite (IH Hs Hk).
Qed.

(** ** Stripping and splitting *)

Lemma lstrip_app_space (sp s : string) :
  sforall isspace sp = true -> lstrip (sp +:+ s) = lstrip s.
Proof.
  induction sp as [|c sp IH]; simpl; [reflexivity|].
  intros [Hc Hs]%andb_true_iff. rewrite Hc. auto.
Qed.

Lemma lstrip_split (s : string) :
  exists ws, s = ws +:+ lstrip s /\ sforall isspace ws = true.
Proof.
  induction s as [|c s (ws & Hs & Hws)]; simpl.
  - now exists "".
  - destruct (isspace c) eqn:Hc.
    + exists (String c ws). simpl. rewrite Hc, Hws. split; [congruence | reflexivity].
    + now exists "".
Qed.

Lemma length_lstrip (s : string) : String.length (lstrip s) <= String.length s.
Proof.
  induction s as [|c s IH]; simpl; [lia|].
  destruct (isspace c); simpl; lia.
Qed.

Lemma lstrip_id_no_leading_space (sp s : string) :
  sforall isspace sp = true -> lstrip (sp +:+ s) = sp +:+ s -> sp = "".
Proof.
  intros Hsp H. rewrite (lstrip_app_space _ _ Hsp) in H.
  pose proof (length_lstrip s) as Hl. rewrite H, length_app in Hl.
  destruct sp; [reflexivity | simpl in Hl; lia].
Qed.

Lemma rstrip_suffix (a b : string) :
  rstrip (a +:+ b) = a +:+ b -> rstrip b = b.
Proof.
  induction a as [|c a IH]; simpl; [auto|].
  destruct (rstrip (a +:+ b)) eqn:E.
  - destruct (isspace c); [discriminate|].
    intros [= H]. now apply IH.
  - intros [= H]. now apply IH.
Qed.

Lemma rstrip_nonspace (s : string) :
  sforall (fun c => negb (isspace c)) s = true -> rstrip s = s.
Proof.
  induction s as [|c s IH]; simpl; [reflexivity|].
  intros [Hc Hs]%andb_true_iff. rewrite (IH Hs).
  destruct s; [|reflexivity].
  apply negb_true_iff in Hc. now rewrite Hc.
Qed.

Lemma rstrip_app_nonempty (a b : string) :
  rstrip b = b -> b <> "" -> rstrip (a +:+ b) = a +:+ b.
Proof.
  intros Hb Hne. induction a as [|c a IH]; simpl; [assumption|].
  rewrite IH. destruct (a +:+ b) eqn:E; [|reflexivity].
  destruct a; simpl in E; [contradiction | discriminate].
Qed.

Lemma runs_words sep (s cur : string) :
  sforall (fun c => negb (sep c)) cur = true ->
  Forall (is_word sep) (runs sep cur s).
Proof.
  revert cur. induction s as [|c s IH]; simpl; intros cur Hcur.
  - destruct cur; [constructor|]. repeat constructor; [discriminate | assumption].
  - destruct (sep c) eqn:Hc.
    + destruct cur.
      * now apply IH.
      * constructor; [split; [discriminate | assumption] | now apply IH].
    + apply IH. rewrite sforall_app, Hcur. simpl. now rewrite Hc.
Qed.

Lemma runs_nil_iff sep (s cur : string) :
  runs sep cur s = [] <-> cur = "" /\ sforall sep s = true.
Proof.
  revert cur. induction s as [|c s IH]; simpl; intros cur.
  - destruct cur; split; try tauto; try discriminate. now intros [? _].
  - destruct (sep c) eqn:Hc; simpl.
    + destruct cur; [apply IH|].
      split; [discriminate | now intros [? _]].
    + rewrite IH. split; [|now intros [_ ?]].
      intros [H _]. destruct cur; discriminate.
Qed.

Lemma join_words_nonempty (w : string) (l : list string) :
  w <> "" -> join " " (w :: l) <> "".
Proof.
  intros Hw. destruct l; simpl; [assumption|].
  destruct w; [contradiction | discriminate].
Qed.

Lemma join_words (l : list string) :
  Forall (is_word isspace) l ->
  sforall collapsed_char (join " " l) = true
  /\ lstrip (join " " l) = join " " l
  /\ rstrip (join " " l) = join " " l.
Proof.
  assert (Hw : forall w, is_word isspace w ->
             sforall collapsed_char w = true /\ rstrip w = w /\
             forall s, lstrip (w +:+ s) = w +:+ s).
  { intros w [Hne Hns]. split; [|split].
    - eapply sforall_impl; [|exact Hns]. intros c Hc. unfold collapsed_char.
      now rewrite Hc.
    - now apply rstrip_nonspace.
    - intros s. destruct w as [|c w]; [contradiction|]. simpl in *.
      apply andb_true_iff in Hns as [Hc _]. apply negb_true_iff in Hc.
      now rewrite Hc. }
  induction 1 as [|w l Hword Hl IH]; [now simpl|].
  destruct (Hw w Hword) as (H1 & H2 & H3).
  destruct l as [|w' l'].
  - simpl. repeat split; try assumption.
    specialize (H3 ""). now rewrite app_empty_r in H3.
  - change (join " " (w :: w' :: l')) with (w +:+ " " +:+ join " " (w' :: l')).
    destruct IH as (I1 & I2 & I3). split; [|split].
    + rewrite !sforall_app, H1, I1. reflexivity.
    + apply H3.
    + apply rstrip_app_nonempty; [|destruct w; [now destruct Hword | discriminate]].
      inversion Hl as [|? ? [Hw' _] _]; subst.
      apply (rstrip_app_nonempty " "); [assumption|].
      now apply join_words_nonempty.
Qed.

Lemma formatted_collapsed (s : string) :
  sforall collapsed_char (formatted s) = true
  /\ lstrip (formatted s) = formatted s
  /\ rstrip (formatted s) = formatted s.
Proof. apply join_words. now apply runs_words. Qed.

Lemma collapsed_no_newline (s : string) :
  sforall collapsed_char s = true -> sforall (cmatch CDot) s = true.
Proof.
  apply sforall_impl. intros c. unfold collapsed_char, cmatch.
  destruct (Ascii.eqb_spec c "010"%char) as [->|]; [discriminate | reflexivity].
Qed.

(** ** The pattern *)

Lemma pattern_unfold :
  pattern = RSeq RBol (RSeq (RStar CSpace)
              (RSeq (RGroup "status" (alternation source_code_comment_markers))
                    body_pattern)).
Proof. reflexivity. Qed.

Lemma rmatch_seq whole r1 r2 (s : string) g k :
  rmatch whole (RSeq r1 r2) s g k
  = rmatch whole r1 s g (fun s' g' => rmatch whole r2 s' g' k).
Proof. reflexivity. Qed.

Lemma bol_eval (s : string) g k : rmatch s RBol s g k = k s g.
Proof. simpl. now rewrite Nat.eqb_refl. Qed.

Lemma star_space_inv whole (s : string) g k r :
  rmatch whole (RStar CSpace) s g k = Some r ->
  exists sp rest, s = sp +:+ rest /\ sforall isspace sp = true /\ k rest g = Some r.
Proof.
  simpl. intros H. apply star_inv in H as (sp & rest & Hs & Hsp & Hk & _).
  now exists sp, rest.
Qed.

Lemma lit_inv whole l (s : string) g k r :
  rmatch whole (RLit l) s g k = Some r ->
  exists rest, s = l +:+ rest /\ k rest g = Some r.
Proof.
  simpl. destruct (String.prefix l s) eqn:E; [|discriminate].
  intros H. exists (drop (String.length l) s). split; [now apply prefix_app | assumption].
Qed.

Lemma alternation_inv whole (l : list string) (s : string) g k r :
  l <> [] ->
  rmatch whole (alternation l) s g k = Some r ->
  exists m, In m l /\ String.prefix m s = true
            /\ k (drop (String.length m) s) g = Some r.
Proof.
  induction l as [|x l IH]; [congruence|]. intros _.
  destruct l as [|y l].
  - cbn [alternation rmatch]. destruct (String.prefix x s) eqn:E; [|discriminate].
    intros H. exists x. simpl. auto.
  - change (alternation (x :: y :: l)) with (RAlt (RLit x) (alternation (y :: l))).
    cbn [rmatch]. destruct (String.prefix x s) eqn:E.
    + destruct (k (drop (String.length x) s) g) eqn:Hk.
      * intros [= ->]. exists x. simpl. auto.
      * intros H. destruct (IH ltac:(discriminate) H) as (m & Hin & Hm).
        exists m. split; [now right | assumption].
    + intros H. destruct (IH ltac:(discriminate) H) as (m & Hin & Hm).
      exists m. split; [now right | assumption].
Qed.

Lemma status_inv whole (s : string) g k r :
  rmatch whole (RGroup "status" (alternation source_code_comment_markers)) s g k
    = Some r ->
  exists marker rest,
    In marker source_code_comment_markers /\ s = marker +:+ rest
    /\ k rest (("status", marker) :: g) = Some r.
Proof.
  cbn [rmatch]. intros H.
  apply alternation_inv in H as (m & Hin & Hp & H); [|discriminate].
  pose proof (prefix_app _ _ Hp) as Hs.
  remember (drop (String.length m) s) as rest eqn:Hrest. clear Hrest Hp.
  exists m, rest. subst s.
  split; [assumption|]. split; [reflexivity|].
  now rewrite take_app_length in H.
Qed.

Lemma checkers_inv whole (s : string) g k r :
  rmatch whole (RGroup "checkers" (RGroup "2" (RStar CDot))) s g k = Some r ->
  exists c rest,
    s = c +:+ rest
    /\ k rest (("checkers", c) :: ("2", c) :: g) = Some r
    /\ forall c' rest', s = c' +:+ rest' -> sforall (cmatch CDot) c' = true ->
         String.length c < String.length c' ->
         k rest' (("checkers", c') :: ("2", c') :: g) = None.
Proof.
  cbn [rmatch]. intros H.
  apply star_inv in H as (c & rest & -> & _ & Hk & Hmax).
  exists c, rest. rewrite take_app_length in Hk. split; [reflexivity|].
  split; [assumption|].
  intros c' rest' Hs Hdot Hlen. specialize (Hmax c' rest' Hs Hdot Hlen).
  cbn beta in Hmax. rewrite Hs, take_app_length in Hmax. exact Hmax.
Qed.

Lemma tail_eval whole (sp post : string) g :
  sforall isspace sp = true ->
  sforall (cmatch CDot) post = true ->
  rmatch whole tail_pattern (sp +:+ "]" +:+ post) g accept
  = Some (("comment", lstrip post) :: g).
Proof.
  intros Hsp Hdot. unfold tail_pattern. cbn [concatenation rmatch].
  change (cmatch CSpace) with isspace.
  apply star_lstrip. rewrite (lstrip_app_space _ _ Hsp).
  replace (lstrip ("]" +:+ post)) with ("]" +:+ post) by reflexivity.
  rewrite (prefix_app_true "]" post), (drop_app_length "]" post).
  apply star_lstrip.
  destruct (lstrip_split post) as (ws & Hpost & Hws).
  apply star_all.
  - rewrite Hpost, sforall_app in Hdot. now apply andb_true_iff in Hdot as [_ ?].
  - unfold accept. now rewrite take_all.
Qed.

Lemma tail_inv whole (s : string) g r :
  sforall (cmatch CDot) s = true ->
  rmatch whole tail_pattern s g accept = Some r ->
  exists sp post,
    s = sp +:+ "]" +:+ post /\ sforall isspace sp = true
    /\ r = ("comment", lstrip post) :: g.
Proof.
  intros Hdot H. pose proof H as H0.
  unfold tail_pattern in H. cbn [concatenation] in H.
  rewrite rmatch_seq in H. apply star_space_inv in H as (sp & rest & -> & Hsp & H).
  rewrite rmatch_seq in H. apply lit_inv in H as (post & -> & _).
  exists sp, post. split; [reflexivity|]. split; [assumption|].
  rewrite tail_eval in H0.
  - congruence.
  - assumption.
  - rewrite !sforall_app in Hdot.
    apply andb_true_iff in Hdot as [_ Hdot].
    now apply andb_true_iff in Hdot as [_ Hdot].
Qed.

Lemma contains_char_split (x : ascii) (s : string) :
  contains (String x "") s = true -> exists a b, s = a +:+ String x b.
Proof.
  induction s as [|c s IH]; simpl.
  - discriminate.
  - destruct (ascii_dec x c) as [->|].
    + intros _. now exists "", s.
    + simpl. intros H. destruct (IH H) as (a & b & ->).
      now exists (String c a), b.
Qed.

(** What a successful match of the pattern on a collapsed text looks like. *)
Lemma re_match_pattern_inv (t : string) (res : groups) :
  sforall (cmatch CDot) t = true ->
  lstrip t = t ->
  re_match pattern t = Some res ->
  exists marker sp1 sp2 c sp3 post,
    t = marker +:+ sp1 +:+ "[" +:+ sp2 +:+ c +:+ sp3 +:+ "]" +:+ post
    /\ In marker source_code_comment_markers
    /\ sforall isspace sp1 = true
    /\ sforall isspace sp2 = true
    /\ sforall isspace sp3 = true
    /\ contains "]" post = false
    /\ res = [("comment", lstrip post); ("checkers", c); ("2", c);
              ("status", marker)].
Proof.
  intros Hdot Hl H. unfold re_match in H. rewrite pattern_unfold in H.
  rewrite rmatch_seq in H. rewrite bol_eval in H.
  rewrite rmatch_seq in H. apply star_space_inv in H as (sp0 & t0 & Ht & Hsp0 & H).
  assert (sp0 = "") as ->.
  { subst t. eapply lstrip_id_no_leading_space; eauto. }
  simpl in Ht. subst t0.
  rewrite rmatch_seq in H. apply status_inv in H as (marker & t1 & Hin & Ht & H).
  unfold body_pattern in H. cbn [concatenation] in H.
  rewrite rmatch_seq in H. apply star_space_inv in H as (sp1 & t2 & -> & Hsp1 & H).
  rewrite rmatch_seq in H. apply lit_inv in H as (t3 & -> & H).
  rewrite rmatch_seq in H. apply star_space_inv in H as (sp2 & t4 & -> & Hsp2 & H).
  rewrite rmatch_seq in H.
  apply checkers_inv in H as (c & t5 & -> & H & Hmax).
  fold accept in H, Hmax.
  assert (Hdot5 : sforall (cmatch CDot) (c +:+ t5) = true).
  { rewrite Ht, !sforall_app in Hdot.
    do 4 (apply andb_true_iff in Hdot as [_ Hdot]).
    now rewrite sforall_app. }
  rewrite sforall_app in Hdot5. apply andb_true_iff in Hdot5 as [Hdotc Hdot5].
  apply tail_inv in H as (sp3 & post & -> & Hsp3 & ->); [|assumption].
  exists marker, sp1, sp2, c, sp3, post.
  repeat split; try assumption.
  destruct (contains "]" post) eqn:Hc; [|reflexivity].
  apply contains_char_split in Hc as (a & b & ->).
  assert (Hb : sforall (cmatch CDot) sp3 = true /\ sforall (cmatch CDot) a = true
               /\ sforall (cmatch CDot) b = true).
  { rewrite !sforall_app in Hdot5. cbn [sforall] in Hdot5.
    split_andb. now repeat split. }
  destruct Hb as (Hd3 & Hda & Hdb).
  specialize (Hmax (c +:+ sp3 +:+ "]" +:+ a) ("]" +:+ b)).
  rewrite (tail_eval t "" b) in Hmax by (reflexivity || assumption).
  discriminate Hmax.
  - now rewrite !app_assoc'.
  - now rewrite !sforall_app, Hdotc, Hd3, Hda.
  - rewrite !length_app. simpl. lia.
Qed.

(** ** The parser *)

Lemma sforall_lstrip p (s : string) :
  (forall c, isspace c = true -> p c = true) ->
  sforall p (lstrip s) = sforall p s.
Proof.
  intros Hp. induction s as [|c s IH]; simpl; [reflexivity|].
  destruct (isspace c) eqn:Hc; [|reflexivity].
  now rewrite IH, (Hp _ Hc).
Qed.

Lemma sforall_rstrip p (s : string) :
  (forall c, isspace c = true -> p c = true) ->
  sforall p (rstrip s) = sforall p s.
Proof.
  intros Hp. induction s as [|c s IH]; simpl; [reflexivity|].
  destruct (rstrip s) eqn:E.
  - rewrite <- IH. simpl. destruct (isspace c) eqn:Hc; simpl.
    + now rewrite (Hp _ Hc).
    + now rewrite andb_true_r.
  - now rewrite <- IH.
Qed.

Lemma sforall_strip p (s : string) :
  (forall c, isspace c = true -> p c = true) ->
  sforall p (strip s) = sforall p s.
Proof.
  intros Hp. unfold strip. now rewrite sforall_rstrip, sforall_lstrip.
Qed.

Lemma isspace_is_separator (c : ascii) : isspace c = true -> is_separator c = true.
Proof. unfold is_separator. intros ->. apply orb_true_r. Qed.

Lemma group_status marker c post :
  group "status" [("comment", post); ("checkers", c); ("2", c); ("status", marker)]
  = marker.
Proof. reflexivity. Qed.

Lemma group_checkers marker c post :
  group "checkers" [("comment", post); ("checkers", c); ("2", c); ("status", marker)]
  = c.
Proof. reflexivity. Qed.

Lemma group_comment marker c post :
  group "comment" [("comment", post); ("checkers", c); ("2", c); ("status", marker)]
  = post.
Proof. reflexivity. Qed.

Lemma elem_of_union_empty (X : gset string) (x : string) : x ∈ X ∪ ∅ <-> x ∈ X.
Proof.
  rewrite elem_of_union. split; [|now left].
  intros [H|H]; [exact H | now apply not_elem_of_empty in H].
Qed.

Lemma nonempty_of_elem (X : gset string) (x : string) : x ∈ X -> X <> ∅.
Proof. intros H ->. now apply not_elem_of_empty in H. Qed.

(** The shape of an accepted text and the directive built from it. *)
Lemma process_inv (s : string) (d : Directive) :
  process_source_line_comment s = Some d ->
  exists marker sp1 sp2 c sp3 post,
    formatted s = marker +:+ sp1 +:+ "[" +:+ sp2 +:+ c +:+ sp3 +:+ "]" +:+ post
    /\ In marker source_code_comment_markers
    /\ sforall isspace sp1 = true
    /\ sforall isspace sp2 = true
    /\ sforall isspace sp3 = true
    /\ contains "]" post = false
    /\ d = directive_of_match
             [("comment", lstrip post); ("checkers", c); ("2", c);
              ("status", marker)].
Proof.
  unfold process_source_line_comment.
  destruct (re_match pattern (formatted s)) as [res|] eqn:E; [|discriminate].
  intros [= <-].
  destruct (formatted_collapsed s) as (Hc & Hl & _).
  apply re_match_pattern_inv in E
    as (marker & sp1 & sp2 & c & sp3 & post & Ht & Hin & H1 & H2 & H3 & Hp & ->);
    [|now apply collapsed_no_newline|assumption].
  exists marker, sp1, sp2, c, sp3, post. repeat split; assumption.
Qed.

Lemma checkers_of_match marker c post :
  checkers (directive_of_match
              [("comment", post); ("checkers", c); ("2", c); ("status", marker)])
  = if String.eqb c "all" then {["all"]} ∪ ∅
    else list_to_set (findall_checker_names (strip c)) ∪ ∅.
Proof. reflexivity. Qed.

Lemma message_of_match marker c post :
  message (directive_of_match
             [("comment", post); ("checkers", c); ("2", c); ("status", marker)])
  = match post with EmptyString => missing_comment | _ => post end.
Proof. reflexivity. Qed.

(** C2 (counterexample).  Empty brackets are accepted by the grammar: the
    parser, and with it the scanner, give a directive whose checkers set is
    empty. *)
Lemma C2_empty_brackets_empty_checkers :
  process_source_line_comment " codechecker_suppress [] foo"
    = Some {| checkers := ∅; message := "foo"; status := "false_positive" |}
  /\ get_source_line_comments (file_reader file_empty_brackets) 3
    = [ {| checkers := ∅; message := "foo"; status := "false_positive" |} ].
Proof. split; vm_compute; reflexivity. Qed.

(** C2 (amended).  For every text accepted by the directive grammar, the
    collapsed text is a marker, optional whitespace, an opening bracket, the
    bracket contents, the last closing bracket of the text and the rest; the
    checkers set of the directive is non-empty exactly when the bracket
    contents hold a character that is neither a comma nor whitespace, and
    no checker name in the set is the empty text. *)
Theorem C2_checkers_nonempty_iff_contents_name_a_checker :
  forall (s : string) (d : Directive),
    process_source_line_comment s = Some d ->
    exists marker sp contents post,
      formatted s = marker +:+ sp +:+ "[" +:+ contents +:+ "]" +:+ post
      /\ In marker source_code_comment_markers
      /\ sforall isspace sp = true
      /\ contains "]" post = false
      /\ (checkers d <> ∅ <-> sforall is_separator contents = false)
      /\ (forall name, name ∈ checkers d -> name <> "").
Proof.
  intros s d H.
  apply process_inv in H
    as (marker & sp1 & sp2 & c & sp3 & post & Ht & Hin & H1 & H2 & H3 & Hp & ->).
  exists marker, sp1, (sp2 +:+ c +:+ sp3), post.
  split; [now rewrite Ht, !app_assoc'|].
  repeat (split; [assumption|]).
  rewrite checkers_of_match.
  assert (Hsep : sforall is_separator (sp2 +:+ c +:+ sp3) = sforall is_separator c).
  { rewrite !sforall_app.
    rewrite (sforall_impl isspace is_separator sp2 isspace_is_separator H2).
    rewrite (sforall_impl isspace is_separator sp3 isspace_is_separator H3).
    now rewrite andb_true_r. }
  rewrite Hsep.
  destruct (String.eqb_spec c "all") as [->|Hne].
  - split; [split; [reflexivity | intros _]|].
    + apply (nonempty_of_elem _ "all"), elem_of_union_empty.
      now apply elem_of_singleton.
    + intros name Hname%elem_of_union_empty%elem_of_singleton. now subst.
  - unfold findall_checker_names.
    pose proof (runs_nil_iff is_separator (strip c) "") as Hnil.
    pose proof (runs_words is_separator (strip c) "" eq_refl) as Hwords.
    rewrite (sforall_strip _ _ isspace_is_separator) in Hnil.
    destruct (runs is_separator "" (strip c)) as [|w l] eqn:E.
    + destruct Hnil as [Hnil _]. destruct (Hnil eq_refl) as [_ Htrue].
      split.
      * split; [|congruence].
        intros Hset. exfalso. apply Hset. apply set_eq. intros x.
        rewrite elem_of_union_empty, elem_of_list_to_set.
        split; intros Hx; [now apply elem_of_nil in Hx|].
        now apply not_elem_of_empty in Hx.
      * intros name Hname%elem_of_union_empty%elem_of_list_to_set.
        now apply elem_of_nil in Hname.
    + split.
      * split.
        -- intros _. destruct (sforall is_separator c) eqn:Hs; [|reflexivity].
           destruct Hnil as [_ Hnil]. now specialize (Hnil (conj eq_refl eq_refl)).
        -- intros _. apply (nonempty_of_elem _ w), elem_of_union_empty.
           apply elem_of_list_to_set. now left.
      * intros name Hname%elem_of_union_empty%elem_of_list_to_set.
        rewrite Forall_forall in Hwords. apply Hwords in Hname.
        now destruct Hname.
Qed.

Lemma C2_checkers_nonempty_iff_contents_name_a_checker_witness :
  exists marker sp contents post,
    formatted " codechecker_suppress [] foo"
      = marker +:+ sp +:+ "[" +:+ contents +:+ "]" +:+ post
    /\ In marker source_code_comment_markers
    /\ sforall isspace sp = true
    /\ contains "]" post = false
    /\ (checkers {| checkers := ∅; message := "foo"; status := "false_positive" |}
          <> ∅ <-> sforall is_separator contents = false)
    /\ (forall name,
          name ∈ checkers {| checkers := ∅; message := "foo";
                             status := "false_positive" |} -> name <> "").
Proof.
  apply (C2_checkers_nonempty_iff_contents_name_a_checker
           " codechecker_suppress [] foo").
  vm_compute. reflexivity.
Defined.

(** C8.  For every text accepted by the directive grammar, the message of
    the directive is the text that follows the closing bracket (the last
    closing bracket of the collapsed text), trimmed; when that is empty the
    message is "WARNING! source code comment is missing". *)
Theorem C8_message_is_trimmed_text_or_placeholder :
  forall (s : string) (d : Directive),
    process_source_line_comment s = Some d ->
    exists before post,
      formatted s = before +:+ "]" +:+ post
      /\ contains "]" post = false
      /\ message d = match strip post with
                     | EmptyString => "WARNING! source code comment is missing"
                     | m => m
                     end.
Proof.
  intros s d H.
  apply process_inv in H
    as (marker & sp1 & sp2 & c & sp3 & post & Ht & Hin & H1 & H2 & H3 & Hp & ->).
  exists (marker +:+ sp1 +:+ "[" +:+ sp2 +:+ c +:+ sp3), post.
  split; [now rewrite Ht, !app_assoc'|]. split; [assumption|].
  rewrite message_of_match.
  assert (Hstrip : strip post = lstrip post).
  { destruct (formatted_collapsed s) as (_ & _ & Hr).
    destruct (lstrip_split post) as (ws & Hpost & _).
    rewrite Ht, Hpost in Hr. unfold strip.
    rewrite <- !app_assoc' in Hr. now apply rstrip_suffix in Hr. }
  rewrite Hstrip. now destruct (lstrip post).
Qed.

Lemma C8_message_is_trimmed_text_or_placeholder_witness :
  exists before post,
    formatted " codechecker_confirmed [all]" = before +:+ "]" +:+ post
    /\ contains "]" post = false
    /\ message {| checkers := {["all"]};
                  message := "WARNING! source code comment is missing";
                  status := "confirmed" |}
       = match strip post with
         | EmptyString => "WARNING! source code comment is missing"
         | m => m
         end.
Proof.
  apply (C8_message_is_trimmed_text_or_placeholder " codechecker_confirmed [all]").
  vm_compute. reflexivity.
Defined.

(** ** The scanning loop *)

Section ScanLoop.

Variable get_line : Z -> string.

#[local] Abbreviation line j := (get_line (Z.of_nat j)).

(** One iteration. *)
Lemma scan_loop_unfold (n : nat) cur out tr :
  scan_loop get_line n cur out tr
  = if check_if_comment (line n) then
      let '(c, o, t) := absorb_line (cur, out, tr) (n, line n) in
      match n with
      | S p => scan_loop get_line p c o t
      | O => (o, t)
      end
    else (out, tr ++ [GetLine (Z.of_nat n)]).
Proof.
  destruct n; cbn [scan_loop absorb_line];
    (destruct (check_if_comment _); cbn [negb]; [|reflexivity]);
    (destruct (has_any_marker _); [|reflexivity]);
    destruct (process_source_line_comment _); reflexivity.
Qed.

Lemma scan_loop_stop (n : nat) cur out tr :
  check_if_comment (line n) = false ->
  scan_loop get_line n cur out tr = (out, tr ++ [GetLine (Z.of_nat n)]).
Proof. intros H. now rewrite scan_loop_unfold, H. Qed.

Lemma run_S (n d : nat) st :
  run get_line n (S d) st
  = run get_line (pred n) d (absorb_line st (n, line n)).
Proof. reflexivity. Qed.

Lemma down_app (n d1 d2 : nat) :
  down n (d1 + d2) = down n d1 ++ down (n - d1) d2.
Proof.
  revert n. induction d1 as [|d1 IH]; intros n; simpl.
  - now rewrite Nat.sub_0_r.
  - rewrite IH. do 3 f_equal. lia.
Qed.

Lemma run_app (n d1 d2 : nat) st :
  run get_line n (d1 + d2) st
  = run get_line (n - d1) d2 (run get_line n d1 st).
Proof.
  unfold run, lines_down. now rewrite down_app, fmap_app, fold_left_app.
Qed.

(** [d] iterations over comment lines. *)
Lemma scan_loop_run (d n : nat) cur out tr :
  d <= n ->
  (forall j, n - d < j <= n -> check_if_comment (line j) = true) ->
  scan_loop get_line n cur out tr
  = let '(c, o, t) := run get_line n d (cur, out, tr) in
    scan_loop get_line (n - d) c o t.
Proof.
  revert n cur out tr. induction d as [|d IH]; intros n cur out tr Hd Hc.
  - cbn [run lines_down down fmap list_fmap fold_left]. now rewrite Nat.sub_0_r.
  - destruct n as [|p]; [lia|].
    rewrite scan_loop_unfold, (Hc (S p)) by lia.
    rewrite run_S.
    destruct (absorb_line (cur, out, tr) (S p, line (S p))) as [[c o] t].
    cbn [pred]. rewrite IH; [reflexivity | lia |].
    intros j Hj. apply Hc. lia.
Qed.

(** The directives and the trace only grow. *)
Lemma absorb_line_acc cur out tr nl :
  absorb_line (cur, out, tr) nl
  = let '(c, o, t) := absorb_line (cur, [], []) nl in (c, out ++ o, tr ++ t).
Proof.
  destruct nl as [n l]. cbn [absorb_line].
  destruct (has_any_marker l); [destruct (process_source_line_comment _)|];
    cbn [app]; now rewrite ?app_nil_r, <- ?app_assoc.
Qed.

Lemma fold_absorb_acc (ls : list (nat * string)) cur out tr :
  fold_left absorb_line ls (cur, out, tr)
  = let '(c, o, t) := fold_left absorb_line ls (cur, [], []) in
    (c, out ++ o, tr ++ t).
Proof.
  revert cur out tr. induction ls as [|nl ls IH]; intros cur out tr.
  - cbn [fold_left]. now rewrite !app_nil_r.
  - cbn [fold_left]. rewrite absorb_line_acc.
    destruct (absorb_line (cur, [], []) nl) as [[c o] t].
    rewrite IH. rewrite (IH c o t).
    destruct (fold_left absorb_line ls (c, [], [])) as [[c' o'] t'].
    now rewrite !app_assoc.
Qed.

Lemma scan_loop_acc (n : nat) cur out tr :
  scan_loop get_line n cur out tr
  = (out ++ fst (scan_loop get_line n cur [] []),
     tr ++ snd (scan_loop get_line n cur [] [])).
Proof.
  revert cur out tr. induction n as [|p IH]; intros cur out tr.
  - rewrite !(scan_loop_unfold 0).
    destruct (check_if_comment (line 0)); [|now rewrite app_nil_r].
    rewrite absorb_line_acc.
    now destruct (absorb_line (cur, [], []) (0, line 0)) as [[c o] t].
  - rewrite !(scan_loop_unfold (S p)).
    destruct (check_if_comment (line (S p))); [|now rewrite app_nil_r].
    rewrite absorb_line_acc.
    destruct (absorb_line (cur, [], []) (S p, line (S p))) as [[c o] t].
    rewrite IH, (IH c o t). cbn [fst snd]. now rewrite !app_assoc.
Qed.

(** Lines without a marker are only accumulated. *)
Lemma fold_absorb_unmarked (ls : list (nat * string)) cur out tr :
  (forall nl, In nl ls -> has_any_marker (snd nl) = false) ->
  fold_left absorb_line ls (cur, out, tr)
  = (cur ++ map (fun nl => strip (snd nl)) ls, out,
     tr ++ map (fun nl => GetLine (Z.of_nat (fst nl))) ls).
Proof.
  revert cur tr. induction ls as [|[n l] ls IH]; intros cur tr Hm.
  - cbn. now rewrite !app_nil_r.
  - cbn [fold_left absorb_line].
    pose proof (Hm (n, l) (or_introl eq_refl)) as Hl. cbn [snd] in Hl.
    rewrite Hl.
    rewrite IH by (intros nl Hnl; apply Hm; now right).
    cbn [map fst snd]. now rewrite <- !app_assoc.
Qed.

(** After a line with a marker nothing is accumulated. *)
Lemma absorb_marked_cur st n l :
  has_any_marker l = true -> (absorb_line st (n, l)).1.1 = [].
Proof.
  destruct st as [[cur out] tr]. cbn [absorb_line]. intros ->.
  now destruct (process_source_line_comment _).
Qed.

(** The line numbers read during [d] iterations. *)
Lemma absorb_line_requests st nl :
  omap (fun e => match e with GetLine n => Some n | _ => None end)
       (absorb_line st nl).2
  = omap (fun e => match e with GetLine n => Some n | _ => None end) st.2
    ++ [Z.of_nat nl.1].
Proof.
  destruct st as [[cur out] tr], nl as [n l]. cbn [absorb_line fst snd].
  destruct (has_any_marker l); [destruct (process_source_line_comment _)|];
    cbn [snd]; rewrite ?omap_app; cbn; now rewrite ?app_nil_r.
Qed.

Lemma fold_absorb_requests (ls : list (nat * string)) st :
  omap (fun e => match e with GetLine n => Some n | _ => None end)
       (fold_left absorb_line ls st).2
  = omap (fun e => match e with GetLine n => Some n | _ => None end) st.2
    ++ map (fun nl => Z.of_nat nl.1) ls.
Proof.
  revert st. induction ls as [|nl ls IH]; intros st.
  - cbn. now rewrite app_nil_r.
  - cbn [fold_left]. rewrite IH, absorb_line_requests.
    now rewrite <- app_assoc.
Qed.

End ScanLoop.

(** The loop variables after some iterations depend only on the lines read. *)
Lemma run_ext (f g : Z -> string) (n d : nat) st :
  (forall j, n - d < j <= n -> f (Z.of_nat j) = g (Z.of_nat j)) ->
  d <= n ->
  run f n d st = run g n d st.
Proof.
  intros H Hd. unfold run, lines_down. f_equal.
  apply list_fmap_ext. intros i j Hj.
  assert (Hin : n - d < j <= n).
  { clear H. apply list_elem_of_lookup_2 in Hj. revert n Hd Hj.
    induction d as [|d IH]; intros n Hd Hj; cbn [down] in Hj.
    - now apply elem_of_nil in Hj.
    - apply elem_of_cons in Hj as [->|Hj]; [lia|].
      destruct n as [|p]; [lia|]. cbn [pred] in Hj.
      destruct d as [|d']; [now apply elem_of_nil in Hj|].
      specialize (IH p ltac:(lia) Hj). lia. }
  now rewrite (H j Hin).
Qed.

(** ** Line numbers *)

Lemma down_seqZ (d n : nat) :
  d <= S n ->
  Z.of_nat <$> down n d = reverse (seqZ (Z.of_nat (S n - d)) (Z.of_nat d)).
Proof.
  revert n. induction d as [|d IH]; intros n Hd; [reflexivity|].
  cbn [down fmap list_fmap]. rewrite seqZ_S, reverse_app, reverse_singleton.
  cbn [app]. f_equal; [lia|].
  destruct n as [|p].
  - assert (d = 0) as -> by lia. reflexivity.
  - cbn [pred]. change (list_fmap nat Z Z.of_nat (down p d)) with (Z.of_nat <$> down p d).
    rewrite IH by lia. do 2 f_equal; lia.
Qed.

Lemma down_rev_seq (d n : nat) :
  d <= S n -> rev (down n d) = seq (S n - d) d.
Proof.
  revert n. induction d as [|d IH]; intros n Hd; [reflexivity|].
  cbn [down rev]. rewrite seq_S. f_equal; [|f_equal; lia].
  destruct n as [|p].
  - assert (d = 0) as -> by lia. reflexivity.
  - cbn [pred]. rewrite IH by lia. f_equal.
Qed.

Lemma seqZ_of_nat (a d : nat) :
  seqZ (Z.of_nat a) (Z.of_nat d) = Z.of_nat <$> seq a d.
Proof.
  induction d as [|d IH]; [reflexivity|].
  rewrite seqZ_S, seq_S, fmap_app, IH. cbn. do 2 f_equal. lia.
Qed.

Lemma omap_process_getlines (l : list nat) :
  omap (fun e => match e with Process t => Some t | _ => None end)
       (map (fun j => GetLine (Z.of_nat j)) l) = [].
Proof. induction l; [reflexivity | assumption]. Qed.

(** ** Where the scan stops *)

Section ScanStops.

Variable get_line : Z -> string.

#[local] Abbreviation line j := (get_line (Z.of_nat j)).

(** The loop reads downward to the first line that is not a comment and
    returns the directives found so far. *)
Lemma scan_loop_stops (n k : nat) cur out tr :
  k <= n ->
  check_if_comment (line k) = false ->
  (forall j, k < j <= n -> check_if_comment (line j) = true) ->
  scan_loop get_line n cur out tr
  = let '(c, o, t) := run get_line n (n - k) (cur, out, tr) in
    (o, t ++ [GetLine (Z.of_nat k)]).
Proof.
  intros Hk Hstop Hc.
  rewrite (scan_loop_run get_line (n - k) n) by (try lia; intros; apply Hc; lia).
  destruct (run get_line n (n - k) (cur, out, tr)) as [[c o] t].
  replace (n - (n - k)) with k by lia. now apply scan_loop_stop.
Qed.

Lemma requests_of_stopped_scan (n k : nat) :
  k <= n ->
  check_if_comment (line k) = false ->
  (forall j, k < j <= n -> check_if_comment (line j) = true) ->
  omap (fun e => match e with GetLine n => Some n | _ => None end)
       (scan_loop get_line n [] [] []).2
  = reverse (seqZ (Z.of_nat k) (Z.of_nat (S n - k))).
Proof.
  intros Hk Hstop Hc. rewrite (scan_loop_stops n k) by assumption.
  pose proof (fold_absorb_requests (lines_down get_line n (n - k)) ([], [], []))
    as Hreq.
  fold (run get_line n (n - k) ([], [], [])) in Hreq.
  destruct (run get_line n (n - k) ([], [], [])) as [[c o] t].
  cbn [snd] in Hreq |- *. rewrite omap_app, Hreq. cbn [omap app].
  unfold lines_down. rewrite <- list_fmap_compose.
  assert (Hrhs : reverse (seqZ (Z.of_nat k) (Z.of_nat (S n - k)))
                 = Z.of_nat <$> down n (S n - k)).
  { rewrite down_seqZ by lia. do 2 f_equal. lia. }
  rewrite Hrhs. replace (S n - k) with ((n - k) + 1) by lia.
  rewrite down_app, fmap_app. cbn.
  replace (n - (n - k)) with k by lia. reflexivity.
Qed.

End ScanStops.

Lemma in_down (d n j : nat) : In j (down n d) -> d <= S n -> S n - d <= j <= n.
Proof.
  revert n. induction d as [|d IH]; intros n Hj Hd; cbn [down] in Hj.
  - contradiction.
  - destruct Hj as [->|Hj]; [lia|].
    destruct n as [|p].
    + assert (d = 0) as -> by lia. contradiction.
    + cbn [pred] in Hj. specialize (IH p Hj ltac:(lia)). lia.
Qed.

Lemma in_lines_down (f : Z -> string) (d n : nat) (nl : nat * string) :
  In nl (lines_down f n d) -> d <= S n ->
  S n - d <= nl.1 <= n /\ nl.2 = f (Z.of_nat nl.1).
Proof.
  unfold lines_down. intros Hin Hd.
  apply in_map_iff in Hin as (j & <- & Hj). cbn [fst snd].
  split; [now apply in_down | reflexivity].
Qed.

(** Comment lines without a marker directly above the line that ends the
    scan leave no mark on the result. *)
Lemma scan_loop_unmarked_tail (f g : Z -> string) (n k m : nat) :
  k < m <= S n ->
  check_if_comment (f (Z.of_nat k)) = false ->
  (forall j, k < j <= n -> check_if_comment (f (Z.of_nat j)) = true) ->
  (forall j, k < j < m -> has_any_marker (f (Z.of_nat j)) = false) ->
  (forall j, m <= j <= n -> g (Z.of_nat j) = f (Z.of_nat j)) ->
  check_if_comment (g (Z.of_nat (m - 1))) = false ->
  (scan_loop f n [] [] []).1 = (scan_loop g n [] [] []).1
  /\ omap (fun e => match e with Process t => Some t | _ => None end)
          (scan_loop f n [] [] []).2
     = omap (fun e => match e with Process t => Some t | _ => None end)
            (scan_loop g n [] [] []).2.
Proof.
  intros Hm Hstop Hc Hun Hfg Hg.
  rewrite (scan_loop_stops f n k) by (try lia; assumption).
  rewrite (scan_loop_stops g n (m - 1));
    [|lia|assumption|intros j Hj; rewrite Hfg by lia; apply Hc; lia].
  replace (n - k) with ((S n - m) + (m - 1 - k)) by lia.
  replace (n - (m - 1)) with (S n - m) by lia.
  rewrite run_app.
  rewrite (run_ext g f n (S n - m)) by (try lia; intros j Hj; apply Hfg; lia).
  destruct (run f n (S n - m) ([], [], [])) as [[c1 o1] t1].
  assert (Hrun : run f (n - (S n - m)) (m - 1 - k) (c1, o1, t1)
                 = (c1 ++ map (fun nl => strip nl.2)
                            (lines_down f (n - (S n - m)) (m - 1 - k)), o1,
                    t1 ++ map (fun j => GetLine (Z.of_nat j))
                            (down (n - (S n - m)) (m - 1 - k)))).
  { unfold run. rewrite fold_absorb_unmarked.
    - unfold lines_down.
      change (map ?h (?h' <$> ?l)) with (map h (map h' l)).
      now rewrite !map_map.
    - intros nl Hin. apply in_lines_down in Hin as [Hr ->]; [|lia].
      apply Hun. lia. }
  rewrite Hrun. cbn [fst snd]. split; [reflexivity|].
  rewrite !omap_app, omap_process_getlines. cbn. now rewrite !app_nil_r.
Qed.

Lemma check_if_comment_empty : check_if_comment "" = false.
Proof. reflexivity. Qed.

(** C6.  Let line [k] be the first line, walking upward from
    [bug_line - 1], that is not a comment.  The scanner reads the lines
    [bug_line - 1], ..., [k] and no other; comment lines without a marker
    directly below line [k] (the lines accumulated when the scan stops) have
    no effect on the directives found or on the texts given to the parser:
    the result is that of the file in which they are blank; and when no
    line between [k] and the bug line has a marker, in particular when the
    line directly above the bug line is not a comment, the result is
    empty. *)
Theorem C6_scan_stops_at_first_non_comment :
  forall (get_line : Z -> string) (bug_line k : Z),
    (2 <= bug_line)%Z ->
    (0 <= k < bug_line)%Z ->
    check_if_comment (get_line k) = false ->
    (forall j, (k < j < bug_line)%Z -> check_if_comment (get_line j) = true) ->
    requested_lines get_line bug_line = reverse (seqZ k (bug_line - k))
    /\ (forall m, (k < m <= bug_line)%Z ->
          (forall j, (k < j < m)%Z -> has_any_marker (get_line j) = false) ->
          get_source_line_comments get_line bug_line
            = get_source_line_comments (cut_above get_line m) bug_line
          /\ processed_texts get_line bug_line
            = processed_texts (cut_above get_line m) bug_line)
    /\ ((forall j, (k < j < bug_line)%Z -> has_any_marker (get_line j) = false) ->
        get_source_line_comments get_line bug_line = []).
Proof.
  intros f bug_line k Hb Hk Hstop Hc.
  assert (Hcut : forall m, (k < m <= bug_line)%Z ->
            (forall j, (k < j < m)%Z -> has_any_marker (f j) = false) ->
            get_source_line_comments f bug_line
              = get_source_line_comments (cut_above f m) bug_line
            /\ processed_texts f bug_line
              = processed_texts (cut_above f m) bug_line).
  { intros m Hm Hun.
    unfold get_source_line_comments, processed_texts,
      get_source_line_comments_traced.
    destruct (Z.ltb_spec (bug_line - 1) 1) as [Hlt|_]; [lia|].
    apply (scan_loop_unmarked_tail f (cut_above f m)
             (Z.to_nat (bug_line - 1)) (Z.to_nat k) (Z.to_nat m)).
    - lia.
    - now rewrite Z2Nat.id by lia.
    - intros j Hj. apply Hc. lia.
    - intros j Hj. apply Hun. lia.
    - intros j Hj. unfold cut_above.
      destruct (Z.ltb_spec (Z.of_nat j) m); [lia | reflexivity].
    - unfold cut_above.
      destruct (Z.ltb_spec (Z.of_nat (Z.to_nat m - 1)) m); [reflexivity | lia]. }
  split; [|split; [exact Hcut|]].
  - unfold requested_lines, get_source_line_comments_traced.
    destruct (Z.ltb_spec (bug_line - 1) 1) as [Hlt|_]; [lia|].
    rewrite (requests_of_stopped_scan f (Z.to_nat (bug_line - 1)) (Z.to_nat k)).
    + do 2 f_equal; lia.
    + lia.
    + now rewrite Z2Nat.id by lia.
    + intros j Hj. apply Hc. lia.
  - intros Hun. destruct (Hcut bug_line ltac:(lia) Hun) as [-> _].
    unfold get_source_line_comments, get_source_line_comments_traced.
    destruct (Z.ltb_spec (bug_line - 1) 1) as [Hlt|_]; [lia|].
    rewrite scan_loop_stop; [reflexivity|].
    unfold cut_above.
    destruct (Z.ltb_spec (Z.of_nat (Z.to_nat (bug_line - 1))) bug_line);
      [reflexivity | lia].
Qed.

(** ** Blocks *)

Section Blocks.

Variable get_line : Z -> string.

#[local] Abbreviation line j := (get_line (Z.of_nat j)).

Lemma run_1 (n : nat) st :
  run get_line n 1 st = absorb_line st (n, line n).
Proof. reflexivity. Qed.

Lemma run_unmarked (n d : nat) cur out tr :
  d <= S n ->
  (forall j, S n - d <= j <= n -> has_any_marker (line j) = false) ->
  run get_line n d (cur, out, tr)
  = (cur ++ map (fun j => strip (line j)) (down n d), out,
     tr ++ map (fun j => GetLine (Z.of_nat j)) (down n d)).
Proof.
  intros Hd Hun. unfold run. rewrite fold_absorb_unmarked.
  - unfold lines_down.
    change (map ?h (?h' <$> ?l)) with (map h (map h' l)).
    now rewrite !map_map.
  - intros nl Hin. apply in_lines_down in Hin as [Hr ->]; [|lia].
    now apply Hun.
Qed.

(** The loop variables when the marker line [m] of a block has been
    read; the block is made of the lines [m], ..., [top - 1]. *)
Lemma run_block (n m top : nat) :
  m < top <= S n ->
  (forall j, m < j < top -> has_any_marker (line j) = false) ->
  (top = S n \/ has_any_marker (line top) = true) ->
  exists o1 t1,
    run get_line n (S n - top) ([], [], []) = ([], o1, t1)
    /\ run get_line n (S n - m) ([], [], [])
       = absorb_line
           (map (fun j => strip (line j)) (down (top - 1) (top - 1 - m)), o1,
            t1 ++ map (fun j => GetLine (Z.of_nat j))
                      (down (top - 1) (top - 1 - m)))
           (m, line m).
Proof.
  intros Hm Hun Htop.
  assert (H1 : exists o1 t1, run get_line n (S n - top) ([], [], []) = ([], o1, t1)).
  { destruct Htop as [->|Htop].
    - exists [], []. now rewrite Nat.sub_diag.
    - destruct (Nat.eq_dec top (S n)) as [->|Hne].
      { exists [], []. now rewrite Nat.sub_diag. }
      replace (S n - top) with ((n - top) + 1) by lia.
      rewrite run_app, run_1. replace (n - (n - top)) with top by lia.
      pose proof (absorb_marked_cur (run get_line n (n - top) ([], [], []))
                    top (line top) Htop) as Hcur.
      destruct (absorb_line _ _) as [[c o] t]. cbn [fst] in Hcur. subst c.
      now exists o, t. }
  destruct H1 as (o1 & t1 & H1). exists o1, t1. split; [assumption|].
  replace (S n - m) with ((S n - top) + ((top - 1 - m) + 1)) by lia.
  rewrite run_app, H1, run_app, run_1.
  replace (n - (S n - top)) with (top - 1) by lia.
  replace (top - 1 - (top - 1 - m)) with m by lia.
  rewrite run_unmarked; [reflexivity | lia |].
  intros j Hj. apply Hun. lia.
Qed.

(** The lines of a block, top to bottom, from the accumulated lines. *)
Lemma rev_accumulated (m top : nat) :
  m < top ->
  rev (map (fun j => strip (line j)) (down (top - 1) (top - 1 - m))
       ++ [strip (line m)])
  = strip <$> lines_between get_line (Z.of_nat m) (Z.of_nat top).
Proof.
  intros Hm. rewrite rev_app_distr, <- map_rev, down_rev_seq by lia.
  unfold lines_between.
  replace (Z.of_nat top - Z.of_nat m)%Z with (Z.of_nat (top - m)) by lia.
  rewrite seqZ_of_nat, <- !list_fmap_compose.
  replace (top - m) with (S (top - 1 - m)) by lia.
  cbn [seq rev app fmap list_fmap map]. f_equal.
  replace (S (top - 1) - (top - 1 - m)) with (S m) by lia. reflexivity.
Qed.

(** The iteration that reads the marker line of a block. *)
Lemma absorb_block (m top : nat) out tr :
  m < top ->
  has_any_marker (line m) = true ->
  absorb_line
    (map (fun j => strip (line j)) (down (top - 1) (top - 1 - m)), out, tr)
    (m, line m)
  = let block := lines_between get_line (Z.of_nat m) (Z.of_nat top) in
    match process_source_line_comment (suppress_comment_of block) with
    | Some comment =>
        ([], out ++ [comment],
         (tr ++ [GetLine (Z.of_nat m)]) ++ [Process (suppress_comment_of block)])
    | None =>
        ([], out,
         (tr ++ [GetLine (Z.of_nat m)])
         ++ [Process (suppress_comment_of block);
             Warning (Z.of_nat m) (join " " (strip <$> block))])
    end.
Proof.
  intros Hm Hmark. cbn [absorb_line]. rewrite Hmark.
  rewrite (rev_accumulated m top Hm). reflexivity.
Qed.

End Blocks.

(** The scan of a file whose lines [m], ..., [top - 1] form a block closed
    by the marker line [m]. *)
Lemma scan_block (f : Z -> string) (n m top : nat) :
  1 <= m < top -> top <= S n ->
  (forall j, m <= j <= n -> check_if_comment (f (Z.of_nat j)) = true) ->
  has_any_marker (f (Z.of_nat m)) = true ->
  (forall j, m < j < top -> has_any_marker (f (Z.of_nat j)) = false) ->
  (top = S n \/ has_any_marker (f (Z.of_nat top)) = true) ->
  exists o1 t1 after,
    run f n (S n - top) ([], [], []) = ([], o1, t1)
    /\ scan_loop f n [] [] []
       = (o1 ++ option_list (process_source_line_comment
                               (suppress_comment_of
                                  (lines_between f (Z.of_nat m) (Z.of_nat top))))
             ++ (scan_loop f (m - 1) [] [] []).1,
          (t1 ++ map (fun j => GetLine (Z.of_nat j)) (down (top - 1) (top - 1 - m)))
          ++ GetLine (Z.of_nat m)
             :: Process (suppress_comment_of
                           (lines_between f (Z.of_nat m) (Z.of_nat top)))
             :: after).
Proof.
  intros Hm Htop Hc Hmark Hun Hnext.
  destruct (run_block f n m top ltac:(lia) Hun Hnext) as (o1 & t1 & H1 & H2).
  rewrite (absorb_block f m top) in H2 by (lia || assumption). cbn zeta in H2.
  rewrite (scan_loop_run f (S n - m) n) by (try lia; intros j Hj; apply Hc; lia).
  rewrite H2. replace (n - (S n - m)) with (m - 1) by lia.
  destruct (process_source_line_comment _) as [d|];
    rewrite scan_loop_acc; cbn [option_list];
    eexists o1, t1, _; (split; [exact H1|]); f_equal.
  - now rewrite <- !app_assoc.
  - rewrite <- !app_assoc. cbn [app]. reflexivity.
  - rewrite <- !app_assoc. cbn [app]. reflexivity.
Qed.


(** C4 (counterexample).  Two comment lines without a space after the
    comment prefix: the line break between them leaves no space in the text
    given to the parser, and the message reads "somecomment". *)
Lemma C4_line_break_is_not_a_space :
  processed_texts (file_reader file_no_space_after_prefix) 4
    = ["codechecker_suppress [a] somecomment"]
  /\ spec_block_text (lines_between (file_reader file_no_space_after_prefix) 2 4)
    = "codechecker_suppress [a] some comment"
  /\ get_source_line_comments (file_reader file_no_space_after_prefix) 4
    = [ {| checkers := {["a"]}; message := "somecomment";
           status := "false_positive" |} ].
Proof. repeat split; vm_compute; reflexivity. Qed.

(** C4 (amended).  Let the lines [m], ..., [top - 1] form a block closed by
    the marker line [m] inside the run of comment lines above the bug line.
    Right after it has read line [m] the scanner calls the parser with the
    lines of the block, each one trimmed, in top-to-bottom file order, put
    together without anything between them and with every occurrence of the
    comment prefix removed; the directive of that text, if any, is added to
    the result.  The parser matches the grammar against that text with its
    whitespace runs collapsed to single spaces and its ends trimmed.  In
    particular the lines "// codechecker_suppress [a,b] some" and
    "// comment" directly above the bug line give the text
    " codechecker_suppress [a,b] some comment" and, first in the result,
    the directive with the checkers [{"a", "b"}] and the message
    "some comment". *)
Theorem C4_block_text_handed_to_parser :
  (forall (get_line : Z -> string) (bug_line m top : Z),
     (1 <= m < top)%Z -> (top <= bug_line)%Z ->
     (forall j, (m <= j < bug_line)%Z -> check_if_comment (get_line j) = true) ->
     has_any_marker (get_line m) = true ->
     (forall j, (m < j < top)%Z -> has_any_marker (get_line j) = false) ->
     (top = bug_line \/ has_any_marker (get_line top) = true) ->
     let text := replace "//" "" (join "" (strip <$> lines_between get_line m top)) in
     exists before after below above,
       (get_source_line_comments_traced get_line bug_line).2
         = before ++ GetLine m :: Process text :: after
       /\ get_source_line_comments get_line bug_line
         = below ++ option_list (process_source_line_comment text) ++ above
       /\ (top = bug_line -> below = []
           /\ processed_texts get_line bug_line
              = text :: omap (fun e => match e with
                                       | Process t => Some t
                                       | _ => None
                                       end) after))
  /\ (forall text : string,
        process_source_line_comment text
        = directive_of_match <$> re_match pattern (join " " (split text)))
  /\ (forall (get_line : Z -> string) (bug_line : Z),
        (3 <= bug_line)%Z ->
        get_line (bug_line - 2)%Z = "// codechecker_suppress [a,b] some" ->
        get_line (bug_line - 1)%Z = "// comment" ->
        exists above,
          hd_error (processed_texts get_line bug_line)
            = Some " codechecker_suppress [a,b] some comment"
          /\ get_source_line_comments get_line bug_line
            = {| checkers := {["a"; "b"]}; message := "some comment";
                 status := "false_positive" |} :: above).
Proof.
  assert (General : forall (f : Z -> string) (bug_line m top : Z),
     (1 <= m < top)%Z -> (top <= bug_line)%Z ->
     (forall j, (m <= j < bug_line)%Z -> check_if_comment (f j) = true) ->
     has_any_marker (f m) = true ->
     (forall j, (m < j < top)%Z -> has_any_marker (f j) = false) ->
     (top = bug_line \/ has_any_marker (f top) = true) ->
     exists before after below above,
       (get_source_line_comments_traced f bug_line).2
         = before ++ GetLine m
             :: Process (suppress_comment_of (lines_between f m top)) :: after
       /\ get_source_line_comments f bug_line
         = below ++ option_list (process_source_line_comment
                                   (suppress_comment_of (lines_between f m top)))
             ++ above
       /\ (top = bug_line -> below = []
           /\ processed_texts f bug_line
              = suppress_comment_of (lines_between f m top)
                  :: omap (fun e => match e with
                                    | Process t => Some t
                                    | _ => None
                                    end) after)).
  { intros f bug_line m top Hm Htop Hc Hmark Hun Hnext.
    unfold get_source_line_comments, processed_texts,
      get_source_line_comments_traced.
    destruct (Z.ltb_spec (bug_line - 1) 1) as [Hlt|_]; [lia|].
    set (n := Z.to_nat (bug_line - 1)).
    set (m' := Z.to_nat m). set (top' := Z.to_nat top).
    assert (Em : m = Z.of_nat m') by lia.
    assert (Et : top = Z.of_nat top') by lia.
    destruct (scan_block f n m' top') as (o1 & t1 & after & H1 & H2).
    - lia.
    - lia.
    - intros j Hj. apply Hc. lia.
    - now rewrite <- Em.
    - intros j Hj. apply Hun. lia.
    - destruct Hnext as [->|Hnext]; [left; lia | right; now rewrite <- Et].
    - rewrite H2, <- Em, <- Et. cbn [fst snd].
      eexists _, after, o1, _. split; [reflexivity|]. split; [reflexivity|].
      intros ->. replace (S n - top') with 0 in H1 by lia.
      injection H1 as <- <-. split; [reflexivity|].
      cbn [app]. rewrite omap_app, omap_process_getlines. reflexivity. }
  split; [exact General|]. split.
  - intros text. unfold process_source_line_comment, formatted.
    now destruct (re_match pattern _).
  - intros f bug_line Hb H2 H1.
    assert (Hlines : lines_between f (bug_line - 2) bug_line
                     = ["// codechecker_suppress [a,b] some"; "// comment"]).
    { unfold lines_between.
      replace (bug_line - (bug_line - 2))%Z with 2%Z by lia.
      rewrite (seqZ_cons (bug_line - 2) 2) by lia.
      rewrite (seqZ_cons _ (Z.pred 2)) by lia.
      rewrite seqZ_nil by lia. cbn [fmap list_fmap].
      replace (Z.succ (bug_line - 2)) with (bug_line - 1)%Z by lia.
      now rewrite H1, H2. }
    destruct (General f bug_line (bug_line - 2)%Z bug_line)
      as (before & after & below & above & _ & Hres & Hfirst).
    + lia.
    + lia.
    + intros j Hj. assert (j = bug_line - 2 \/ j = bug_line - 1)%Z as [->| ->] by lia.
      * now rewrite H2.
      * now rewrite H1.
    + now rewrite H2.
    + intros j Hj. assert (j = bug_line - 1)%Z as -> by lia. now rewrite H1.
    + now left.
    + destruct (Hfirst eq_refl) as [-> Htexts].
      rewrite Hlines in Hres, Htexts. exists above.
      rewrite Htexts, Hres. split; reflexivity.
Qed.

Lemma C4_block_text_handed_to_parser_witness :
  exists before after below above,
    (get_source_line_comments_traced (file_reader file_two_line_directive) 4).2
      = before ++ GetLine 2
          :: Process (replace "//" ""
                        (join "" (strip <$> lines_between
                                    (file_reader file_two_line_directive) 2 4)))
          :: after
    /\ get_source_line_comments (file_reader file_two_line_directive) 4
      = below
        ++ option_list
             (process_source_line_comment
                (replace "//" ""
                   (join "" (strip <$> lines_between
                               (file_reader file_two_line_directive) 2 4))))
        ++ above
    /\ (4%Z = 4%Z -> below = []
        /\ processed_texts (file_reader file_two_line_directive) 4
           = replace "//" ""
               (join "" (strip <$> lines_between
                           (file_reader file_two_line_directive) 2 4))
             :: omap (fun e => match e with
                               | Process t => Some t
                               | _ => None
                               end) after).
Proof.
  apply (proj1 C4_block_text_handed_to_parser
           (file_reader file_two_line_directive) 4%Z 2%Z 4%Z).
  - lia.
  - lia.
  - intros j Hj. assert (j = 2 \/ j = 3)%Z as [->| ->] by lia; reflexivity.
  - reflexivity.
  - intros j Hj. assert (j = 3)%Z as -> by lia. reflexivity.
  - now left.
Defined.

Lemma C6_scan_stops_at_first_non_comment_witness :
  requested_lines (file_reader file_stop_in_the_middle) 5
    = reverse (seqZ 2 (5 - 2))
  /\ (forall m, (2 < m <= 5)%Z ->
        (forall j, (2 < j < m)%Z ->
           has_any_marker (file_reader file_stop_in_the_middle j) = false) ->
        get_source_line_comments (file_reader file_stop_in_the_middle) 5
          = get_source_line_comments
              (cut_above (file_reader file_stop_in_the_middle) m) 5
        /\ processed_texts (file_reader file_stop_in_the_middle) 5
          = processed_texts (cut_above (file_reader file_stop_in_the_middle) m) 5)
  /\ ((forall j, (2 < j < 5)%Z ->
         has_any_marker (file_reader file_stop_in_the_middle j) = false) ->
      get_source_line_comments (file_reader file_stop_in_the_middle) 5 = []).
Proof.
  apply (C6_scan_stops_at_first_non_comment
           (file_reader file_stop_in_the_middle) 5%Z 2%Z).
  - lia.
  - lia.
  - reflexivity.
  - intros j Hj. assert (j = 3 \/ j = 4)%Z as [->| ->] by lia; reflexivity.
Defined.


Example scan_malformed_below :
  get_source_line_comments_traced (file_reader file_malformed_below) 4
  = ([ {| checkers := {["c"]}; message := "up"; status := "confirmed" |} ],
     [ GetLine 3;
       Process " codechecker_suppress core.Foo some comment";
       Warning 3 "// codechecker_suppress core.Foo some comment";
       GetLine 2;
       Process " codechecker_confirmed [c] up";
       GetLine 1 ]).
Proof. vm_compute. reflexivity. Qed.

Example scan_stop_in_the_middle :
  get_source_line_comments_traced (file_reader file_stop_in_the_middle) 5
  = ([ {| checkers := {["all"]}; message := "two"; status := "false_positive" |} ],
     [ GetLine 4; Process " codechecker_suppress [all] two";
       GetLine 3; GetLine 2 ]).
Proof. vm_compute. reflexivity. Qed.

(** Every iteration starts by reading its line. *)
Lemma scan_loop_first_request (f : Z -> string) (n : nat) cur :
  exists after,
    (scan_loop f n cur [] []).2 = GetLine (Z.of_nat n) :: after.
Proof.
  rewrite scan_loop_unfold.
  destruct (check_if_comment (f (Z.of_nat n))); [|now exists []].
  rewrite absorb_line_acc.
  assert (Hfirst : exists t', (absorb_line (cur, [], []) (n, f (Z.of_nat n))).2
                              = GetLine (Z.of_nat n) :: t').
  { cbn [absorb_line].
    destruct (has_any_marker _); [destruct (process_source_line_comment _)|];
      cbn; eauto. }
  destruct Hfirst as (t' & Ht').
  destruct (absorb_line (cur, [], []) (n, f (Z.of_nat n))) as [[c o] t].
  cbn [snd] in Ht'. subst t. cbn [app].
  destruct n as [|p]; [now eexists|].
  rewrite scan_loop_acc. cbn [snd app]. now eexists.
Qed.

(** C3 (code_bug).  The claim: every line number passed to the line reader
    is at least 1.  The code: when line 1 is a comment the loop decrements
    the line number to 0 and reads line 0 before it stops; so it is for the
    file with a comment on its first line and the bug on its second, and for
    every line reader and bug line such that all the lines above the bug
    line are comments. *)
Theorem C3_line_zero_is_requested :
  requested_lines (file_reader file_comment_at_top) 2 = [1%Z; 0%Z]
  /\ (forall (get_line : Z -> string) (bug_line : Z),
        (2 <= bug_line)%Z ->
        (forall j, (1 <= j < bug_line)%Z -> check_if_comment (get_line j) = true) ->
        exists before after,
          requested_lines get_line bug_line = before ++ 0%Z :: after).
Proof.
  split; [vm_compute; reflexivity|].
  intros f bug_line Hb Hc.
  unfold requested_lines, get_source_line_comments_traced.
  destruct (Z.ltb_spec (bug_line - 1) 1) as [Hlt|_]; [lia|].
  set (n := Z.to_nat (bug_line - 1)).
  rewrite (scan_loop_run f n n) by (try lia; intros j Hj; apply Hc; lia).
  destruct (run f n n ([], [], [])) as [[c o] t].
  rewrite Nat.sub_diag, scan_loop_acc. cbn [snd].
  destruct (scan_loop_first_request f 0 c) as (after & ->).
  rewrite omap_app. cbn [omap list_omap]. now eexists _, _.
Qed.

(** * Further properties of the module *)

(** ** The parser: status, acceptance, whitespace *)

(** X1.  The status of a directive is fixed by the marker the collapsed text
    starts with: [codechecker_intentional] gives "intentional",
    [codechecker_confirmed] gives "confirmed", the other two markers give
    "false_positive"; [skip_suppress_status] holds for the directive exactly
    when the marker is not [codechecker_confirmed]. *)
Theorem X1_status_follows_marker :
  forall (s : string) (d : Directive),
    process_source_line_comment s = Some d ->
    exists marker rest,
      formatted s = marker +:+ rest
      /\ In marker source_code_comment_markers
      /\ status d = review_status_of marker
      /\ skip_suppress_status (status d)
         = negb (String.eqb marker "codechecker_confirmed").
Proof.
  intros s d H.
  apply process_inv in H
    as (marker & sp1 & sp2 & c & sp3 & post & Ht & Hin & _ & _ & _ & _ & ->).
  exists marker, (sp1 +:+ "[" +:+ sp2 +:+ c +:+ sp3 +:+ "]" +:+ post).
  split; [exact Ht|]. split; [exact Hin|].
  cbn in Hin. destruct Hin as [<-|[<-|[<-|[<-|[]]]]]; split; reflexivity.
Qed.

Lemma X1_status_follows_marker_witness :
  exists marker rest,
    formatted " codechecker_intentional [all] by design" = marker +:+ rest
    /\ In marker source_code_comment_markers
    /\ status {| checkers := {["all"]}; message := "by design";
                 status := "intentional" |} = review_status_of marker
    /\ skip_suppress_status
         (status {| checkers := {["all"]}; message := "by design";
                    status := "intentional" |})
       = negb (String.eqb marker "codechecker_confirmed").
Proof.
  apply (X1_status_follows_marker " codechecker_intentional [all] by design").
  vm_compute. reflexivity.
Defined.

Lemma star_some_of_split {A} p (pre rest : string) (k : string -> option A) :
  sforall p pre = true -> k rest <> None -> star p (pre +:+ rest) k <> None.
Proof.
  intros Hp Hk Hnone. apply Hk.
  now apply (star_none p (pre +:+ rest) k Hnone pre rest).
Qed.

Lemma alternation_complete whole (l : list string) (m s : string) g k :
  In m l -> String.prefix m s = true ->
  k (drop (String.length m) s) g <> None ->
  rmatch whole (alternation l) s g k <> None.
Proof.
  induction l as [|x l IH]; [contradiction|]. intros Hin Hp Hk.
  destruct l as [|y l].
  - destruct Hin as [->|[]]. cbn [alternation rmatch]. now rewrite Hp.
  - change (alternation (x :: y :: l)) with (RAlt (RLit x) (alternation (y :: l))).
    cbn [rmatch]. destruct Hin as [->|Hin].
    + rewrite Hp. now destruct (k (drop (String.length m) s) g).
    + destruct (String.prefix x s); [|now apply IH].
      destruct (k (drop (String.length x) s) g); [discriminate | now apply IH].
Qed.

Lemma contains_char_app (x : ascii) (a b : string) :
  contains (String x "") (a +:+ String x b) = true.
Proof.
  induction a as [|c a IH]; simpl.
  - destruct (ascii_dec x x); [now destruct b | congruence].
  - rewrite IH. apply orb_true_r.
Qed.

(** A collapsed text of the shape marker, whitespace, opening bracket,
    anything with a closing bracket in it, matches the pattern. *)
Lemma re_match_pattern_complete (t marker sp rest : string) :
  sforall (cmatch CDot) t = true ->
  t = marker +:+ sp +:+ "[" +:+ rest ->
  In marker source_code_comment_markers ->
  sforall isspace sp = true ->
  contains "]" rest = true ->
  re_match pattern t <> None.
Proof.
  intros Hdot Ht Hin Hsp Hc.
  apply contains_char_split in Hc as (a & b & ->).
  assert (Hd : sforall (cmatch CDot) a = true /\ sforall (cmatch CDot) b = true).
  { rewrite Ht, !sforall_app in Hdot. cbn [sforall] in Hdot.
    split_andb. now split. }
  destruct Hd as [Hda Hdb].
  unfold re_match. rewrite pattern_unfold, rmatch_seq, bol_eval, rmatch_seq.
  cbn [rmatch]. change (cmatch CSpace) with isspace.
  apply (star_some_of_split isspace "" t); [reflexivity|].
  apply (alternation_complete t source_code_comment_markers marker);
    [assumption | rewrite Ht; apply prefix_app_true |].
  rewrite Ht at 2. rewrite drop_app_length.
  unfold body_pattern. cbn [concatenation]. rewrite rmatch_seq.
  cbn [rmatch]. change (cmatch CSpace) with isspace.
  apply star_some_of_split; [assumption|].
  rewrite (prefix_app_true "[" _), (drop_app_length "[" _).
  apply (star_some_of_split isspace ""); [reflexivity|].
  apply star_some_of_split; [assumption|].
  fold accept. rewrite (tail_eval t "" b) by (reflexivity || assumption).
  discriminate.
Qed.

(** X2.  The parser accepts a text exactly when the text, with its
    whitespace runs collapsed and its ends trimmed, is one of the four
    markers, then whitespace or nothing, then an opening bracket, then a
    text with a closing bracket somewhere in it. *)
Theorem X2_parser_accepts_iff_marker_and_brackets :
  forall s : string,
    process_source_line_comment s <> None
    <-> exists marker sp rest,
          formatted s = marker +:+ sp +:+ "[" +:+ rest
          /\ In marker source_code_comment_markers
          /\ sforall isspace sp = true
          /\ contains "]" rest = true.
Proof.
  intros s. split.
  - destruct (process_source_line_comment s) as [d|] eqn:E; [|congruence].
    intros _. apply process_inv in E
      as (marker & sp1 & sp2 & c & sp3 & post & Ht & Hin & H1 & _ & _ & _ & _).
    exists marker, sp1, (sp2 +:+ c +:+ sp3 +:+ "]" +:+ post).
    repeat split; try assumption.
    replace (sp2 +:+ c +:+ sp3 +:+ "]" +:+ post)
      with ((sp2 +:+ c +:+ sp3) +:+ String "]"%char post)
      by now rewrite !app_assoc'.
    apply contains_char_app.
  - intros (marker & sp & rest & Ht & Hin & Hsp & Hc).
    unfold process_source_line_comment.
    destruct (formatted_collapsed s) as (Hcol & _ & _).
    pose proof (re_match_pattern_complete (formatted s) marker sp rest
                  (collapsed_no_newline _ Hcol) Ht Hin Hsp Hc) as Hm.
    now destruct (re_match pattern (formatted s)).
Qed.

(** ** Collapsing whitespace *)

Lemma runs_word (sep : ascii -> bool) (w cur s : string) :
  sforall (fun c => negb (sep c)) w = true ->
  runs sep cur (w +:+ s) = runs sep (cur +:+ w) s.
Proof.
  revert cur. induction w as [|c w IH]; intros cur Hw; simpl.
  - now rewrite app_empty_r.
  - simpl in Hw. apply andb_true_iff in Hw as [Hc Hw].
    apply negb_true_iff in Hc. rewrite Hc, IH by assumption.
    now rewrite app_assoc'.
Qed.

Lemma split_join_words (l : list string) :
  Forall (is_word isspace) l -> split (join " " l) = l.
Proof.
  unfold split. induction 1 as [|w l [Hne Hw] Hl IH]; [reflexivity|].
  destruct l as [|w' l'].
  - cbn [join]. rewrite <- (app_empty_r w) at 1.
    rewrite runs_word by assumption. simpl. now destruct w.
  - change (join " " (w :: w' :: l')) with (w +:+ " " +:+ join " " (w' :: l')).
    remember (join " " (w' :: l')) as rest eqn:Hrest. clear Hrest.
    rewrite runs_word by assumption.
    change (" " +:+ rest) with (String " "%char rest).
    cbn [runs isspace String.append].
    destruct w; [contradiction|]. now rewrite IH.
Qed.

(** X3.  Splitting on whitespace undoes joining with single spaces: the
    collapsed form of a collapsed text is the text itself, and the parser
    gives the same answer for a text and for its collapsed form. *)
Theorem X3_collapsing_is_idempotent :
  forall s : string,
    split (formatted s) = split s
    /\ formatted (formatted s) = formatted s
    /\ process_source_line_comment (formatted s) = process_source_line_comment s.
Proof.
  intros s.
  assert (H : split (formatted s) = split s).
  { unfold formatted. apply split_join_words. now apply runs_words. }
  split; [exact H|].
  unfold process_source_line_comment.
  assert (H2 : formatted (formatted s) = formatted s).
  { unfold formatted at 1. now rewrite H. }
  split; [exact H2 | now rewrite H2].
Qed.

(** ** The checker names *)

Lemma rstrip_split (s : string) :
  exists ws, s = rstrip s +:+ ws /\ sforall isspace ws = true.
Proof.
  induction s as [|c s (ws & Hs & Hws)]; [now exists ""|].
  cbn [rstrip]. destruct (rstrip s) as [|c' r] eqn:E.
  - cbn [String.append] in Hs. subst ws.
    destruct (isspace c) eqn:Hc.
    + exists (String c s). cbn [String.append sforall]. now rewrite Hc, Hws.
    + exists s. cbn [String.append]. now split.
  - exists ws. cbn [String.append] in Hs |- *. now rewrite <- Hs.
Qed.

Lemma runs_leading_separators (sep : ascii -> bool) (ws s : string) :
  sforall sep ws = true -> runs sep "" (ws +:+ s) = runs sep "" s.
Proof.
  induction ws as [|c ws IH]; simpl; [reflexivity|].
  intros [Hc Hws]%andb_true_iff. rewrite Hc. auto.
Qed.

Lemma runs_only_separators (sep : ascii -> bool) (cur ws : string) :
  sforall sep ws = true ->
  runs sep cur ws = match cur with EmptyString => [] | _ => [cur] end.
Proof.
  revert cur. induction ws as [|c ws IH]; intros cur; simpl; [reflexivity|].
  intros [Hc Hws]%andb_true_iff. rewrite Hc.
  destruct cur; rewrite IH by assumption; reflexivity.
Qed.

Lemma runs_trailing_separators (sep : ascii -> bool) (cur s ws : string) :
  sforall sep ws = true -> runs sep cur (s +:+ ws) = runs sep cur s.
Proof.
  intros Hws. revert cur. induction s as [|c s IH]; intros cur; simpl.
  - now apply runs_only_separators.
  - destruct (sep c); [destruct cur|]; now rewrite IH.
Qed.

Lemma findall_strip (s : string) :
  findall_checker_names (strip s) = findall_checker_names s.
Proof.
  unfold findall_checker_names, strip.
  destruct (lstrip_split s) as (l & Hl & Hlsp).
  destruct (rstrip_split (lstrip s)) as (r & Hr & Hrsp).
  rewrite Hl at 2. rewrite Hr at 2.
  rewrite runs_leading_separators, runs_trailing_separators; [reflexivity| |];
    apply (sforall_impl isspace is_separator _ isspace_is_separator); assumption.
Qed.

(** X4.  The checkers of a directive are exactly the checker names written
    between the brackets: the maximal runs of characters of the bracket
    contents that are neither a comma nor whitespace.  The word [all] is
    not apart: it enters the set as any other name does. *)
Theorem X4_checkers_are_names_between_brackets :
  forall (s : string) (d : Directive),
    process_source_line_comment s = Some d ->
    exists marker sp contents post,
      formatted s = marker +:+ sp +:+ "[" +:+ contents +:+ "]" +:+ post
      /\ In marker source_code_comment_markers
      /\ sforall isspace sp = true
      /\ contains "]" post = false
      /\ checkers d = list_to_set (findall_checker_names contents).
Proof.
  intros s d H.
  apply process_inv in H
    as (marker & sp1 & sp2 & c & sp3 & post & Ht & Hin & H1 & H2 & H3 & Hp & ->).
  exists marker, sp1, (sp2 +:+ c +:+ sp3), post.
  split; [now rewrite Ht, !app_assoc'|].
  repeat (split; [assumption|]).
  rewrite checkers_of_match.
  assert (Hruns : findall_checker_names (sp2 +:+ c +:+ sp3)
                  = findall_checker_names c).
  { unfold findall_checker_names.
    rewrite runs_leading_separators, runs_trailing_separators; [reflexivity| |];
      apply (sforall_impl isspace is_separator _ isspace_is_separator); assumption. }
  rewrite Hruns.
  destruct (String.eqb_spec c "all") as [->|Hne].
  - apply set_eq. intros x. rewrite elem_of_union_empty.
    cbn. rewrite elem_of_union_empty. reflexivity.
  - rewrite findall_strip. apply set_eq. intros x.
    now rewrite elem_of_union_empty.
Qed.

Lemma X4_checkers_are_names_between_brackets_witness :
  exists marker sp contents post,
    formatted " codechecker_suppress [ core.Foo,  all ] why"
      = marker +:+ sp +:+ "[" +:+ contents +:+ "]" +:+ post
    /\ In marker source_code_comment_markers
    /\ sforall isspace sp = true
    /\ contains "]" post = false
    /\ checkers {| checkers := {["core.Foo"; "all"]}; message := "why";
                   status := "false_positive" |}
       = list_to_set (findall_checker_names contents).
Proof.
  apply (X4_checkers_are_names_between_brackets
           " codechecker_suppress [ core.Foo,  all ] why").
  vm_compute. reflexivity.
Defined.

(** ** Comment lines *)

Lemma prefix_app_l (p a b : string) :
  String.prefix p a = true -> String.prefix p (a +:+ b) = true.
Proof.
  revert a. induction p as [|c p IH]; intros a; simpl.
  - intros _. now destruct (a +:+ b).
  - destruct a as [|c' a]; [discriminate|]. simpl.
    destruct (ascii_dec c c'); [apply IH | discriminate].
Qed.

(** X5.  A line is a comment exactly when its first two characters after
    the leading whitespace are the comment prefix. *)
Theorem X5_comment_iff_prefix_after_whitespace :
  forall source_line : string,
    check_if_comment source_line = true
    <-> exists ws rest,
          source_line = ws +:+ "//" +:+ rest /\ sforall isspace ws = true.
Proof.
  intros s. unfold check_if_comment, startswith, strip. split.
  - intros H. destruct (lstrip_split s) as (ws & Hs & Hws).
    destruct (rstrip_split (lstrip s)) as (r & Hr & _).
    apply (prefix_app_l _ _ r) in H. rewrite <- Hr in H.
    apply prefix_app in H. exists ws, (drop (String.length "//") (lstrip s)).
    split; [|assumption]. now rewrite <- H.
  - intros (ws & rest & -> & Hws).
    rewrite (lstrip_app_space _ _ Hws).
    change (lstrip ("//" +:+ rest)) with ("//" +:+ rest).
    change ("//" +:+ rest) with (String "/"%char (String "/"%char rest)).
    cbn [rstrip]. destruct (rstrip rest); reflexivity.
Qed.

(** ** The scanner: what it reads and what it returns *)

Lemma absorb_line_result cur nl :
  let '(c, o, t) := absorb_line (cur, [], []) nl in
  o = omap process_source_line_comment
        (omap (fun e => match e with Process t => Some t | _ => None end) t).
Proof.
  destruct nl as [n l]. cbn [absorb_line].
  destruct (has_any_marker l); [|reflexivity].
  destruct (process_source_line_comment _) eqn:E; cbn; now rewrite E.
Qed.

Lemma scan_loop_result (f : Z -> string) (n : nat) cur :
  (scan_loop f n cur [] []).1
  = omap process_source_line_comment
      (omap (fun e => match e with Process t => Some t | _ => None end)
            (scan_loop f n cur [] []).2).
Proof.
  revert cur. induction n as [|p IH]; intros cur; rewrite scan_loop_unfold.
  - destruct (check_if_comment _); [|reflexivity].
    pose proof (absorb_line_result cur (0, f (Z.of_nat 0))) as Ha.
    now destruct (absorb_line (cur, [], []) _) as [[c o] t].
  - destruct (check_if_comment _); [|reflexivity].
    pose proof (absorb_line_result cur (S p, f (Z.of_nat (S p)))) as Ha.
    destruct (absorb_line (cur, [], []) _) as [[c o] t].
    rewrite scan_loop_acc. cbn [fst snd]. rewrite !omap_app, <- IH.
    now rewrite Ha.
Qed.

(** X6.  The directives returned by the scanner are the answers of the
    parser to the texts it was given, in the order of the calls, the texts
    the parser did not accept left out. *)
Theorem X6_result_is_parsed_texts :
  forall (get_line : Z -> string) (bug_line : Z),
    get_source_line_comments get_line bug_line
    = omap process_source_line_comment (processed_texts get_line bug_line).
Proof.
  intros f b. unfold get_source_line_comments, processed_texts,
    get_source_line_comments_traced.
  destruct (Z.ltb_spec (b - 1) 1); [reflexivity | apply scan_loop_result].
Qed.

Lemma scan_loop_requests (f : Z -> string) (n : nat) cur :
  exists d, d <= n
    /\ omap (fun e => match e with GetLine n => Some n | _ => None end)
            (scan_loop f n cur [] []).2
       = Z.of_nat <$> down n (S d).
Proof.
  revert cur. induction n as [|p IH]; intros cur; rewrite scan_loop_unfold.
  - exists 0. split; [lia|].
    destruct (check_if_comment _); [|reflexivity].
    pose proof (absorb_line_requests (cur, [], []) (0, f (Z.of_nat 0))) as Ha.
    destruct (absorb_line (cur, [], []) _) as [[c o] t]. exact Ha.
  - destruct (check_if_comment _); [|exists 0; split; [lia | reflexivity]].
    pose proof (absorb_line_requests (cur, [], []) (S p, f (Z.of_nat (S p)))) as Ha.
    destruct (absorb_line (cur, [], []) _) as [[c o] t].
    destruct (IH c) as (d & Hd & Hreq).
    exists (S d). split; [lia|].
    rewrite scan_loop_acc. cbn [fst snd] in Ha |- *.
    rewrite omap_app, Ha, Hreq. reflexivity.
Qed.

(** X7.  From a bug line of 2 or more the scanner reads the lines
    [bug_line - 1], [bug_line - 2], ... down to some line [k >= 0], each
    once and none skipped: it never asks for a negative line number, nor
    for the bug line or a line below it. *)
Theorem X7_requests_run_down_from_line_above :
  forall (get_line : Z -> string) (bug_line : Z),
    (2 <= bug_line)%Z ->
    exists k : Z,
      (0 <= k < bug_line)%Z
      /\ requested_lines get_line bug_line = reverse (seqZ k (bug_line - k)).
Proof.
  intros f b Hb. unfold requested_lines, get_source_line_comments_traced.
  destruct (Z.ltb_spec (b - 1) 1); [lia|].
  destruct (scan_loop_requests f (Z.to_nat (b - 1)) []) as (d & Hd & ->).
  exists (b - 1 - Z.of_nat d)%Z. split; [lia|].
  rewrite down_seqZ by lia. do 2 f_equal; lia.
Qed.

Lemma X7_requests_run_down_from_line_above_witness :
  exists k : Z,
    (0 <= k < 5)%Z
    /\ requested_lines (file_reader file_stop_in_the_middle) 5
       = reverse (seqZ k (5 - k)).
Proof.
  apply (X7_requests_run_down_from_line_above
           (file_reader file_stop_in_the_middle) 5%Z).
  lia.
Defined.

Lemma scan_loop_ext (f g : Z -> string) (n : nat) cur out tr :
  (forall j, j <= n -> f (Z.of_nat j) = g (Z.of_nat j)) ->
  scan_loop f n cur out tr = scan_loop g n cur out tr.
Proof.
  revert cur out tr. induction n as [|p IH]; intros cur out tr H;
    rewrite !(scan_loop_unfold _ _ cur out tr), <- (H _ (le_n _));
    [reflexivity|].
  destruct (check_if_comment _); [|reflexivity].
  destruct (absorb_line _ _) as [[c o] t]. apply IH.
  intros j Hj. apply H. lia.
Qed.

(** X8.  The scan depends on the lines above the bug line only: two files
    with the same lines [0], ..., [bug_line - 1] give the same directives
    and the same calls, whatever the bug line and the lines below it
    hold. *)
Theorem X8_scan_depends_on_lines_above_only :
  forall (f g : Z -> string) (bug_line : Z),
    (forall j, (0 <= j < bug_line)%Z -> f j = g j) ->
    get_source_line_comments_traced f bug_line
    = get_source_line_comments_traced g bug_line.
Proof.
  intros f g b H. unfold get_source_line_comments_traced.
  destruct (Z.ltb_spec (b - 1) 1); [reflexivity|].
  apply scan_loop_ext. intros j Hj. apply H. lia.
Qed.

Lemma X8_scan_depends_on_lines_above_only_witness :
  get_source_line_comments_traced (file_reader file_two_line_directive) 4
  = get_source_line_comments_traced
      (file_reader ["int x;"; "// codechecker_suppress [a,b] some";
                    "// comment"; "// codechecker_confirmed [all] below"]) 4.
Proof.
  apply (X8_scan_depends_on_lines_above_only
           (file_reader file_two_line_directive)
           (file_reader ["int x;"; "// codechecker_suppress [a,b] some";
                         "// comment"; "// codechecker_confirmed [all] below"])
           4%Z).
  intros j Hj.
  assert (j = 0 \/ j = 1 \/ j = 2 \/ j = 3)%Z as [->|[->|[->| ->]]] by lia;
    reflexivity.
Defined.

(** X9.  Stacked directives: when the line directly above the bug line is a
    comment with a marker, the result for the bug line is the directive of
    that line alone, if the parser accepts it, followed by the result for
    the line above. *)
Theorem X9_marker_line_above_stacks :
  forall (get_line : Z -> string) (bug_line : Z),
    (3 <= bug_line)%Z ->
    check_if_comment (get_line (bug_line - 1)%Z) = true ->
    has_any_marker (get_line (bug_line - 1)%Z) = true ->
    get_source_line_comments get_line bug_line
    = option_list (process_source_line_comment
                     (replace "//" "" (strip (get_line (bug_line - 1)%Z))))
      ++ get_source_line_comments get_line (bug_line - 1).
Proof.
  intros f b Hb Hc Hm.
  unfold get_source_line_comments, get_source_line_comments_traced.
  destruct (Z.ltb_spec (b - 1) 1); [lia|].
  destruct (Z.ltb_spec (b - 1 - 1) 1); [lia|].
  set (n := Z.to_nat (b - 1)).
  assert (En : (b - 1)%Z = Z.of_nat n) by lia.
  destruct (scan_block f n n (S n)) as (o1 & t1 & after & H1 & H2).
  - lia.
  - lia.
  - intros j Hj. assert (j = n) as -> by lia. now rewrite <- En.
  - now rewrite <- En.
  - intros j Hj. lia.
  - now left.
  - rewrite H2. rewrite Nat.sub_diag in H1. injection H1 as <- <-.
    cbn [fst app]. replace (Z.to_nat (b - 1 - 1)) with (n - 1) by lia.
    do 2 f_equal. unfold lines_between, suppress_comment_of.
    replace (Z.of_nat (S n) - Z.of_nat n)%Z with 1%Z by lia.
    rewrite seqZ_cons, seqZ_nil by lia. cbn. now rewrite En.
Qed.

Lemma X9_marker_line_above_stacks_witness :
  get_source_line_comments (file_reader file_wildcard_nearest) 4
  = option_list (process_source_line_comment
                   (replace "//" ""
                      (strip (file_reader file_wildcard_nearest (4 - 1)%Z))))
    ++ get_source_line_comments (file_reader file_wildcard_nearest) (4 - 1).
Proof.
  apply (X9_marker_line_above_stacks (file_reader file_wildcard_nearest) 4%Z).
  - lia.
  - reflexivity.
  - reflexivity.
Defined.

(** ** The filter *)

Lemma explicit_matches_snoc (c : string) (l : list Directive) (x : Directive) :
  explicit_matches c (l ++ [x])
  = explicit_matches c l ++ (if bool_decide (c ∈ checkers x) then [x] else []).
Proof.
  unfold explicit_matches. rewrite filter_app, filter_cons, filter_nil.
  destruct (decide (c ∈ checkers x)) as [H|H].
  - now rewrite (bool_decide_eq_true_2 _ H).
  - now rewrite (bool_decide_eq_false_2 _ H).
Qed.

Lemma wildcards_snoc (l : list Directive) (x : Directive) :
  wildcards (l ++ [x])
  = wildcards l ++ (if bool_decide ("all" ∈ checkers x) then [x] else []).
Proof. apply (explicit_matches_snoc "all"). Qed.

Lemma explicit_matches_removelast_nil (c : string) (l : list Directive) :
  explicit_matches c l = [] -> explicit_matches c (removelast l) = [].
Proof.
  destruct l as [|y l] using rev_ind; [auto|].
  rewrite removelast_last, explicit_matches_snoc.
  now intros [H _]%app_eq_nil.
Qed.

Lemma explicit_matches_nil (c : string) (l : list Directive) :
  (forall d, d ∈ l -> c ∉ checkers d) -> explicit_matches c l = [].
Proof.
  unfold explicit_matches. induction l as [|x l IH]; intros H; [reflexivity|].
  rewrite filter_cons_False by (apply H; now left).
  apply IH. intros d Hd. apply H. now right.
Qed.

(** The variables of the loop of the filter after the whole list. *)
Lemma filter_fold (c : string) (l : list Directive) :
  let st := fold_left (filter_step c) l
              {| all_checker_comment := None; checker_name_comments := [];
                 comment_len := 0 |} in
  checker_name_comments st = explicit_matches c l
  /\ comment_len st = length (explicit_matches c (removelast l))
  /\ (explicit_matches c (removelast l) = [] ->
      all_checker_comment st = last (wildcards l)).
Proof.
  induction l as [|x l IH] using rev_ind; [now cbn|].
  rewrite fold_left_app. cbn [fold_left]. cbn zeta in IH |- *.
  destruct IH as (Hcnc & _ & Hall).
  set (st := fold_left (filter_step c) l _) in *.
  rewrite removelast_last. unfold filter_step.
  cbn [checker_name_comments comment_len all_checker_comment].
  rewrite Hcnc, explicit_matches_snoc, wildcards_snoc.
  split; [destruct (bool_decide (c ∈ checkers x));
          [reflexivity | now rewrite app_nil_r]|].
  split; [reflexivity|].
  intros Hnil. rewrite Hnil. cbn [length Nat.eqb]. rewrite andb_true_r.
  destruct (bool_decide ("all" ∈ checkers x)).
  - now rewrite last_snoc.
  - rewrite app_nil_r. apply Hall. now apply explicit_matches_removelast_nil.
Qed.

Lemma filter_comments_char (l : list Directive) (c : string) :
  filter_comments l c
  = explicit_matches c l
    ++ match explicit_matches c (removelast l) with
       | [] => option_list (last (wildcards l))
       | _ => []
       end.
Proof.
  unfold filter_comments. destruct l as [|y l'] eqn:El; [reflexivity|].
  rewrite <- El. clear El y l'.
  destruct (filter_fold c l) as (Hcnc & Hlen & Hall). cbn zeta in *.
  set (st := fold_left (filter_step c) l _) in *.
  rewrite Hcnc, Hlen.
  destruct (explicit_matches c (removelast l)) as [|e es].
  - rewrite (Hall eq_refl). cbn [length Nat.eqb].
    destruct (last (wildcards l)); [reflexivity | now rewrite app_nil_r].
  - cbn [length Nat.eqb]. rewrite app_nil_r.
    now destruct (all_checker_comment st).
Qed.

(** X10.  What the filter returns: the directives that name the checker, in
    the order of the scan, followed, when none of the directives before the
    last one names the checker, by the last directive of the scan whose
    checkers hold ['all'], if there is one. *)
Theorem X10_filter_is_explicit_matches_then_wildcard :
  forall (get_line : Z -> string) (bug_line : Z) (checker_name : string),
    filter_source_line_comments get_line bug_line checker_name
    = explicit_matches checker_name (get_source_line_comments get_line bug_line)
      ++ match explicit_matches checker_name
                 (removelast (get_source_line_comments get_line bug_line)) with
         | [] => option_list
                   (last (wildcards (get_source_line_comments get_line bug_line)))
         | _ => []
         end.
Proof. intros f b c. apply filter_comments_char. Qed.

(** X11.  When no directive of the line names the checker, the filter
    returns the wildcard directive alone, and of several wildcard
    directives the last one of the scan, the one farthest from the bug
    line; it returns nothing when there is no wildcard directive. *)
Theorem X11_filter_falls_back_to_last_wildcard :
  forall (get_line : Z -> string) (bug_line : Z) (checker_name : string),
    (forall d, d ∈ get_source_line_comments get_line bug_line ->
               checker_name ∉ checkers d) ->
    filter_source_line_comments get_line bug_line checker_name
    = option_list (last (wildcards (get_source_line_comments get_line bug_line))).
Proof.
  intros f b c Hno. unfold filter_source_line_comments.
  rewrite filter_comments_char.
  assert (Hnil : explicit_matches c (get_source_line_comments f b) = []).
  { now apply explicit_matches_nil. }
  now rewrite Hnil, (explicit_matches_removelast_nil _ _ Hnil).
Qed.

Lemma X11_filter_falls_back_to_last_wildcard_witness :
  filter_source_line_comments (file_reader file_two_wildcards) 4 "core.Foo"
  = option_list
      (last (wildcards (get_source_line_comments
                          (file_reader file_two_wildcards) 4))).
Proof.
  apply (X11_filter_falls_back_to_last_wildcard
           (file_reader file_two_wildcards) 4%Z "core.Foo").
  intros d Hd.
  assert (Hscan : get_source_line_comments (file_reader file_two_wildcards) 4
                  = [ {| checkers := {["all"]}; message := "near";
                         status := "false_positive" |};
                      {| checkers := {["all"]}; message := "far";
                         status := "confirmed" |} ])
    by (vm_compute; reflexivity).
  rewrite Hscan in Hd.
  apply elem_of_cons in Hd as [->|Hd]; [|apply elem_of_cons in Hd as [->|Hd]].
  - cbn [checkers]. intros H%elem_of_singleton. discriminate.
  - cbn [checkers]. intros H%elem_of_singleton. discriminate.
  - now apply elem_of_nil in Hd.
Defined.

Example filter_two_wildcards :
  filter_source_line_comments (file_reader file_two_wildcards) 4 "core.Foo"
  = [ {| checkers := {["all"]}; message := "far"; status := "confirmed" |} ].
Proof. vm_compute. reflexivity. Qed.

(** X12.  When a directive other than the last one of the scan names the
    checker, the filter returns exactly the directives that name it, in the
    order of the scan, and no wildcard directive for its being one. *)
Theorem X12_filter_explicit_match_before_last_wins :
  forall (get_line : Z -> string) (bug_line : Z) (checker_name : string)
         (d : Directive),
    d ∈ removelast (get_source_line_comments get_line bug_line) ->
    checker_name ∈ checkers d ->
    filter_source_line_comments get_line bug_line checker_name
    = explicit_matches checker_name (get_source_line_comments get_line bug_line).
Proof.
  intros f b c d Hd Hc. unfold filter_source_line_comments.
  rewrite filter_comments_char.
  destruct (explicit_matches c (removelast (get_source_line_comments f b)))
    as [|e es] eqn:E; [|apply app_nil_r].
  exfalso. unfold explicit_matches in E.
  now apply (filter_nil_not_elem_of _ _ d E Hc).
Qed.

Lemma X12_filter_explicit_match_before_last_wins_witness :
  filter_source_line_comments (file_reader file_explicit_nearest) 4 "x"
  = explicit_matches "x"
      (get_source_line_comments (file_reader file_explicit_nearest) 4).
Proof.
  apply (X12_filter_explicit_match_before_last_wins
           (file_reader file_explicit_nearest) 4%Z "x"
           {| checkers := {["x"]}; message := "one"; status := "false_positive" |}).
  - assert (Hscan : get_source_line_comments (file_reader file_explicit_nearest) 4
                    = [ {| checkers := {["x"]}; message := "one";
                           status := "false_positive" |};
                        {| checkers := {["all"]}; message := "two";
                           status := "false_positive" |} ])
      by (vm_compute; reflexivity).
    rewrite Hscan. cbn [removelast]. apply list_elem_of_singleton. reflexivity.
  - cbn [checkers]. now apply elem_of_singleton.
Defined.

(** X13.  The filter invents nothing: every directive it returns is one of
    the directives of the scan, and its checkers hold the checker name or
    ['all']. *)
Theorem X13_filter_returns_matching_scanned_directives :
  forall (get_line : Z -> string) (bug_line : Z) (checker_name : string)
         (d : Directive),
    d ∈ filter_source_line_comments get_line bug_line checker_name ->
    d ∈ get_source_line_comments get_line bug_line
    /\ (checker_name ∈ checkers d \/ "all" ∈ checkers d).
Proof.
  intros f b c d. unfold filter_source_line_comments.
  rewrite filter_comments_char. intros [Hd|Hd]%elem_of_app.
  - apply list_elem_of_filter in Hd as [Hc Hd]. auto.
  - destruct (explicit_matches c _); [|now apply elem_of_nil in Hd].
    destruct (last (wildcards _)) as [w|] eqn:Hw; [|now apply elem_of_nil in Hd].
    apply list_elem_of_singleton in Hd as ->.
    apply last_Some in Hw as (l' & Hw).
    assert (Hin : w ∈ wildcards (get_source_line_comments f b)).
    { rewrite Hw. apply elem_of_app. right. now apply list_elem_of_singleton. }
    apply list_elem_of_filter in Hin as [Hall Hin]. auto.
Qed.

Lemma X13_filter_returns_matching_scanned_directives_witness :
  {| checkers := {["all"]}; message := "far"; status := "confirmed" |}
    ∈ get_source_line_comments (file_reader file_two_wildcards) 4
  /\ ("core.Foo" ∈ checkers {| checkers := {["all"]}; message := "far";
                               status := "confirmed" |}
      \/ "all" ∈ checkers {| checkers := {["all"]}; message := "far";
                             status := "confirmed" |}).
Proof.
  apply (X13_filter_returns_matching_scanned_directives
           (file_reader file_two_wildcards) 4%Z "core.Foo").
  assert (Hf : filter_source_line_comments (file_reader file_two_wildcards) 4
                 "core.Foo"
               = [ {| checkers := {["all"]}; message := "far";
                      status := "confirmed" |} ])
    by (vm_compute; reflexivity).
  rewrite Hf. apply list_elem_of_singleton. reflexivity.
Defined.

(** ** The comment prefix and the warnings *)

Lemma replace_slashes_nil : replace "//" "" "" = "".
Proof. reflexivity. Qed.

Lemma replace_slashes_pair (s : string) :
  replace "//" "" (String "/" (String "/" s)) = replace "//" "" s.
Proof. unfold replace. now destruct s. Qed.

Lemma replace_slashes_other (c : ascii) (s : string) :
  String.prefix "//" (String c s) = false ->
  replace "//" "" (String c s) = String c (replace "//" "" s).
Proof. unfold replace. cbn [replace_from]. now intros ->. Qed.

Lemma prefix_slashes (s : string) :
  String.prefix "//" s = true -> exists s', s = String "/" (String "/" s').
Proof. intros H%prefix_app. now exists (drop (String.length "//") s). Qed.

(** Removing the comment prefix leaves a slash in front only of a text that
    had one in front. *)
Lemma replace_slashes_head (s : string) :
  String.prefix "/" s = false -> String.prefix "/" (replace "//" "" s) = false.
Proof.
  destruct s as [|c s]; [reflexivity|]. intros H.
  rewrite replace_slashes_other.
  - cbn [String.prefix] in H |- *. destruct (ascii_dec "/" c); [|reflexivity].
    now destruct s.
  - cbn [String.prefix] in H |- *. destruct (ascii_dec "/" c); [|reflexivity].
    now destruct s.
Qed.

Lemma replace_slashes_clean_le (n : nat) (s : string) :
  String.length s <= n -> contains "//" (replace "//" "" s) = false.
Proof.
  revert s. induction n as [|n IH]; intros s Hn.
  - destruct s; [reflexivity | simpl in Hn; lia].
  - destruct s as [|c s]; [reflexivity|].
    destruct (String.prefix "//" (String c s)) eqn:Hp.
    + apply prefix_slashes in Hp as (s' & [= -> ->]).
      rewrite replace_slashes_pair. apply IH. simpl in Hn. lia.
    + rewrite (replace_slashes_other c s Hp). cbn [contains].
      rewrite IH by (simpl in Hn; lia). rewrite orb_false_r.
      cbn [String.prefix] in Hp |- *.
      destruct (ascii_dec "/" c) as [<-|]; [|reflexivity].
      exact (replace_slashes_head s Hp).
Qed.

Lemma replace_slashes_clean (s : string) :
  contains "//" (replace "//" "" s) = false.
Proof. now apply (replace_slashes_clean_le (String.length s)). Qed.

Lemma absorb_line_texts cur nl :
  Forall (fun t => contains "//" t = false)
    (omap (fun e => match e with Process t => Some t | _ => None end)
          (absorb_line (cur, [], []) nl).2).
Proof.
  destruct nl as [n l]. cbn [absorb_line].
  destruct (has_any_marker l); [|constructor].
  destruct (process_source_line_comment _); cbn;
    repeat constructor; apply replace_slashes_clean.
Qed.

Lemma scan_loop_texts (f : Z -> string) (n : nat) cur :
  Forall (fun t => contains "//" t = false)
    (omap (fun e => match e with Process t => Some t | _ => None end)
          (scan_loop f n cur [] []).2).
Proof.
  revert cur. induction n as [|p IH]; intros cur; rewrite scan_loop_unfold.
  - destruct (check_if_comment _); [|constructor].
    pose proof (absorb_line_texts cur (0, f (Z.of_nat 0))) as Ha.
    now destruct (absorb_line (cur, [], []) _) as [[c o] t].
  - destruct (check_if_comment _); [|constructor].
    pose proof (absorb_line_texts cur (S p, f (Z.of_nat (S p)))) as Ha.
    destruct (absorb_line (cur, [], []) _) as [[c o] t].
    rewrite scan_loop_acc. cbn [fst snd] in Ha |- *. rewrite omap_app.
    apply Forall_app. split; [exact Ha | apply IH].
Qed.

(** X14.  No text given to the parser holds the comment prefix: removing
    the occurrences of the two slashes from left to right leaves no two
    slashes side by side, whatever the lines of the file hold. *)
Theorem X14_parser_never_sees_comment_prefix :
  forall (get_line : Z -> string) (bug_line : Z),
    Forall (fun text => contains "//" text = false)
           (processed_texts get_line bug_line).
Proof.
  intros f b. unfold processed_texts, get_source_line_comments_traced.
  destruct (Z.ltb_spec (b - 1) 1); [constructor | apply scan_loop_texts].
Qed.

Lemma absorb_line_warnings cur nl :
  let '(c, o, t) := absorb_line (cur, [], []) nl in
  length (omap (fun e => match e with Warning n t => Some (n, t) | _ => None end) t)
  + length o
  = length (omap (fun e => match e with Process t => Some t | _ => None end) t).
Proof.
  destruct nl as [n l]. cbn [absorb_line].
  destruct (has_any_marker l); [|reflexivity].
  destruct (process_source_line_comment _); reflexivity.
Qed.

Lemma scan_loop_warnings (f : Z -> string) (n : nat) cur :
  length (omap (fun e => match e with Warning n t => Some (n, t) | _ => None end)
               (scan_loop f n cur [] []).2)
  + length (scan_loop f n cur [] []).1
  = length (omap (fun e => match e with Process t => Some t | _ => None end)
                 (scan_loop f n cur [] []).2).
Proof.
  revert cur. induction n as [|p IH]; intros cur; rewrite scan_loop_unfold.
  - destruct (check_if_comment _); [|reflexivity].
    pose proof (absorb_line_warnings cur (0, f (Z.of_nat 0))) as Ha.
    now destruct (absorb_line (cur, [], []) _) as [[c o] t].
  - destruct (check_if_comment _); [|reflexivity].
    pose proof (absorb_line_warnings cur (S p, f (Z.of_nat (S p)))) as Ha.
    destruct (absorb_line (cur, [], []) _) as [[c o] t].
    rewrite scan_loop_acc. cbn [fst snd]. rewrite !omap_app, !List.length_app.
    specialize (IH c). lia.
Qed.

(** X15.  Every text given to the parser ends in a directive or in a
    warning, never both and never neither: the warnings and the directives
    of a scan together are as many as the calls of the parser. *)
Theorem X15_each_text_gives_directive_or_warning :
  forall (get_line : Z -> string) (bug_line : Z),
    length (logged_warnings get_line bug_line)
    + length (get_source_line_comments get_line bug_line)
    = length (processed_texts get_line bug_line).
Proof.
  intros f b. unfold logged_warnings, get_source_line_comments, processed_texts,
    get_source_line_comments_traced.
  destruct (Z.ltb_spec (b - 1) 1); [reflexivity | apply scan_loop_warnings].
Qed.
